(** * amqpx/pool: Connection, ConnectionPool and SessionPool

    A shallow embedding of [pool/connection.go] (the [Connection] wrapper and
    the [SessionPool]) and of the [ConnectionPool] source file.

    Conventions of the embedding.
    - A Go pointer that may be nil is an [option]; a Go result pair
      [(ptr, err)] is a pair of options, exactly as the code returns it.
    - A struct reached through a pointer is passed and returned by value
      (explicit state passing): an operation that mutates its receiver
      returns the receiver's new state.
    - A buffered Go channel is a record [chan] holding its buffer, its
      capacity and its closed bit.
    - A [select] statement picks one of its ready cases.  Which one is picked
      when several are ready, and what the outside world does (the result of
      a dial, a token that fires during a sleep), is supplied by explicit
      oracles; a [select] without a ready case and without [default] is the
      outcome [Blocked].
    - A [context.Context] is the bit "its Done channel is closed"; [cancel()]
      sets the bit, and it is never cleared.
    - Mutexes are not modelled: every operation runs to completion on its
      own (the code serialises each Connection behind [ch.mu]). *)

From Stdlib Require Import ZArith List Bool String DecimalString Lia.
Import ListNotations.

Local Open Scope string_scope.
Local Open Scope list_scope.

(** ** Outcomes of a call *)

(** A call returns, panics, blocks for ever in the state it was given, or
    needs more of the world's script than it was handed ([More]: the retry
    loop of [recover] has no bound of its own). *)
Inductive outcome (A : Type) : Type :=
| Ret (a : A)
| Panic (msg : string)
| Blocked
| More.

Arguments Ret {A} a.
Arguments Panic {A} msg.
Arguments Blocked {A}.
Arguments More {A}.

(** ** Errors *)

(** [*amqp.Error] as delivered on a NotifyClose channel. *)
Record AmqpErr : Type := { Code : Z; Reason : string }.

(** Go [error] values ([goerror], so that the method [error] keeps its name): the package's sentinels, the two context errors, a
    broker error, an opaque error of a library, and the shapes of
    [fmt.Errorf] the code uses.  Only [%w] links are followed by [Is]. *)
Inductive goerror : Type :=
| ErrInvalidConnectURL
| ErrConnectionFailed
| ErrConnectionClosed
| ErrPoolInitializationFailed
| ErrPoolClosed
| ErrClosed
| errInvalidPoolSize
| ContextCanceled
| ContextDeadlineExceeded
| Amqp (e : AmqpErr)
| Opaque (msg : string)
| Errorf_w (prefix : string) (w : goerror)   (* fmt.Errorf("prefix: %w", w)  *)
| Errorf_wv (w : goerror) (v : goerror)        (* fmt.Errorf("%w: %v", w, v)   *)
| Errorf_wd (w : goerror) (d : Z)            (* fmt.Errorf("%w: %d", w, d)   *)
| Errorf_ws (w : goerror) (s : string).      (* fmt.Errorf("%w: text", w)    *)

Definition AmqpErr_eq_dec (a b : AmqpErr) : {a = b} + {a <> b}.
Proof. decide equality; auto using Z.eq_dec, string_dec. Defined.

Definition error_eq_dec (a b : goerror) : {a = b} + {a <> b}.
Proof. decide equality; auto using Z.eq_dec, string_dec, AmqpErr_eq_dec. Defined.

(** [errors.Is]: the target is compared with every error of the [%w] chain. *)
Fixpoint Is (e target : goerror) : bool :=
  (if error_eq_dec e target then true else false) ||
  match e with
  | Errorf_w _ w | Errorf_wv w _ | Errorf_wd w _ | Errorf_ws w _ => Is w target
  | _ => false
  end.

(** A [context.Context]: live ([None]) or done with the reason [ctx.Err()]
    reports. *)
Inductive ctxErr : Type := Canceled | DeadlineExceeded.

Definition context : Type := option ctxErr.

Definition Done (ctx : context) : bool :=
  match ctx with Some _ => true | None => false end.

Definition ctx_Err (ctx : context) : option goerror :=
  match ctx with
  | Some Canceled => Some ContextCanceled
  | Some DeadlineExceeded => Some ContextDeadlineExceeded
  | None => None
  end.

(** [context.WithCancel(parent)]: the child starts in the parent's state. *)
Definition WithCancel (parent : context) : context := parent.

(** Calling the cancel function of a context. *)
Definition cancel_ctx (ctx : context) : context :=
  match ctx with Some k => Some k | None => Some Canceled end.

(** Cancellation-class ("shutdown-class") errors of the spec: the caller's
    context expired or a pool is shutting down. *)
Definition shutdown_class (e : goerror) : bool :=
  Is e ContextCanceled || Is e ContextDeadlineExceeded || Is e ErrClosed || Is e ErrPoolClosed.

(** Modelled from the spec: [flaggable] is called by [ReturnConnection] but
    is not part of the available sources.  "An error flags a Connection iff it
    is a broker/transport error.  A cancellation-class error (caller context
    expired, pool shutting down) does NOT flag the Connection." *)
Definition flaggable (err : option goerror) : bool :=
  match err with
  | None => false
  | Some e => negb (shutdown_class e)
  end.

(** ** Channels *)

Record chan (A : Type) : Type := mkChan { buf : list A; cap : nat; closed : bool }.

Arguments mkChan {A} buf cap closed.
Arguments buf {A} c.
Arguments cap {A} c.
Arguments closed {A} c.

(** [make(chan A, n)] *)
Definition make {A : Type} (n : nat) : chan A := mkChan [] n false.

(** A receive is ready when the buffer holds a value or the channel is closed. *)
Definition recv_ready {A : Type} (ch : chan A) : bool :=
  match buf ch with [] => closed ch | _ :: _ => true end.

(** [v, ok := <-ch] on a ready channel: the oldest value and the rest of
    the channel when [ok], or [None] when [!ok] (a closed channel that is
    drained). *)
Definition recv {A : Type} (ch : chan A) : option (A * chan A) :=
  match buf ch with
  | v :: rest => Some (v, mkChan rest (cap ch) (closed ch))
  | [] => None
  end.

(** A send is ready when the buffer has room; on a closed channel the send
    case is chosen too and then panics. *)
Definition send_ready {A : Type} (ch : chan A) : bool :=
  closed ch || (List.length (buf ch) <? cap ch)%nat.

Definition send {A : Type} (v : A) (ch : chan A) : outcome (chan A) :=
  if closed ch then Panic "send on closed channel"
  else Ret (mkChan (buf ch ++ [v]) (cap ch) false).

(** [len(ch)] *)
Definition len {A : Type} (ch : chan A) : Z := Z.of_nat (List.length (buf ch)).

(** [select]: the cases are numbered in source order and [ready] tells which
    of them can proceed; the scheduler's [pick] is taken when that case is
    ready, otherwise the first ready case is.  [None]: no case is ready. *)
Fixpoint first_ready (i : nat) (ready : list bool) : option nat :=
  match ready with
  | [] => None
  | true :: _ => Some i
  | false :: rest => first_ready (S i) rest
  end.

Definition select (pick : nat) (ready : list bool) : option nat :=
  if nth pick ready false then Some pick else first_ready 0 ready.

(** ** Machine integers *)

(** Go's [int] and [int64] are 64-bit two's complement; [++], [--] and
    [Add] wrap around. *)
Definition wrap64 (z : Z) : Z := ((z + 2 ^ 63) mod 2 ^ 64 - 2 ^ 63)%Z.

(** ** The broker client and the standard library, as far as the pool sees them *)

(** [*amqp.Connection]: a handle with an identity and the bit reported by
    its [IsClosed()]. *)
Record Handle : Type := { hid : nat; hclosed : bool }.

(** [amqp.Blocking]: a flow-control notification. *)
Record Blocking : Type := { Active : bool; BlockReason : string }.

(** [*tls.Config], opaque. *)
Record TLSConfig : Type := { ServerName : string }.

(** [*url.URL], reduced to what the code touches: the scheme it may
    overwrite and everything else. *)
Record URL : Type := { Scheme : string; Rest : string }.

Definition URL_String (u : URL) : string := (Scheme u ++ "://" ++ Rest u)%string.

Definition set_Scheme (s : string) (u : URL) : URL := {| Scheme := s; Rest := Rest u |}.

(** What [amqp.DialConfig] answers when it is called: a fresh open handle or
    an error. *)
Inductive DialResult : Type :=
| DialOk (h : nat)
| DialErr (e : goerror).

(** One round of the retry loop of [recover], as the world plays it: the
    answer of the dial, and whether the shutdown token fires before the
    backoff timer when the loop sleeps. *)
Record Attempt : Type := { dial : DialResult; cancelled : bool }.

(** Choices of the scheduler inside one call: [err_pick i] tells whether the
    [i]-th [select] of [error] takes the shutdown case when an error is
    pending as well; [pause_pick i] whether the token fires during the
    [i]-th one-second sleep of [pauseOnFlowControl]. *)
Record Sched : Type := { err_pick : nat -> bool; pause_pick : nat -> bool }.

(** ** Timers *)

(** [*time.Timer]: whether the timer is running, and whether a value waits
    in its channel [C]. *)
Record Timer : Type := { running : bool; pending : bool }.

(** [time.NewTimer(d)] *)
Definition NewTimer : Timer := {| running := true; pending := false |}.

(** [timer.Stop()]: true when the call stops the timer, false when the
    timer has already expired or been stopped. *)
Definition Timer_Stop (t : Timer) : bool * Timer :=
  (running t, {| running := false; pending := pending t |}).

(** [timer.Reset(d)] *)
Definition Timer_Reset (t : Timer) : Timer := {| running := true; pending := pending t |}.

(** The timer expires: it sends on [C]. *)
Definition Timer_expire (t : Timer) : Timer := {| running := false; pending := true |}.

(** [<-timer.C]: takes the value that waits in the channel, or waits for a
    running timer to expire and takes its value; [None] when the timer is
    stopped or expired and the channel is empty: the receive blocks for
    ever. *)
Definition Timer_receive (t : Timer) : option Timer :=
  if pending t then Some {| running := running t; pending := false |}
  else if running t then Some {| running := false; pending := false |}
  else None.

(** A timer that is stopped or expired, with an empty channel. *)
Definition Timer_idle : Timer := {| running := false; pending := false |}.

(** [if !timer.Stop() { <-timer.C }] *)
Definition Timer_drain (t : Timer) : option Timer :=
  let '(stopped, t) := Timer_Stop t in
  if negb stopped then Timer_receive t else Some t.

(** A [return] under [defer func() { if !timer.Stop() { <-timer.C } }()]. *)
Definition return_draining {A : Type} (timer : Timer) (r : A) : outcome A :=
  match Timer_drain timer with
  | Some _ => Ret r
  | None => Blocked
  end.

(** * Connection *)

Module Connection.

(** [type Connection struct].  [cached] is the classification read by
    [IsCached()] in the pool; [done] is the state of [ctx]; the mutex, the
    cancel function (it sets [done]) and the backoff function (it only fixes
    how long a sleep lasts) have no field. *)
Record t : Type := mk {
  url : string;
  name : string;
  id : Z;
  cached : bool;
  flagged : bool;
  tls : option TLSConfig;
  conn : option Handle;
  heartbeat : Z;
  connTimeout : Z;
  errors : chan AmqpErr;
  blockers : chan Blocking;
  done : bool
}.

Definition set_flagged (b : bool) (ch : t) : t :=
  mk (url ch) (name ch) (id ch) (cached ch) b (tls ch) (conn ch)
     (heartbeat ch) (connTimeout ch) (errors ch) (blockers ch) (done ch).

Definition set_conn (h : option Handle) (ch : t) : t :=
  mk (url ch) (name ch) (id ch) (cached ch) (flagged ch) (tls ch) h
     (heartbeat ch) (connTimeout ch) (errors ch) (blockers ch) (done ch).

Definition set_errors (e : chan AmqpErr) (ch : t) : t :=
  mk (url ch) (name ch) (id ch) (cached ch) (flagged ch) (tls ch) (conn ch)
     (heartbeat ch) (connTimeout ch) e (blockers ch) (done ch).

Definition set_blockers (b : chan Blocking) (ch : t) : t :=
  mk (url ch) (name ch) (id ch) (cached ch) (flagged ch) (tls ch) (conn ch)
     (heartbeat ch) (connTimeout ch) (errors ch) b (done ch).

(** [ch.cancel()] *)
Definition cancel (ch : t) : t :=
  mk (url ch) (name ch) (id ch) (cached ch) (flagged ch) (tls ch) (conn ch)
     (heartbeat ch) (connTimeout ch) (errors ch) (blockers ch) true.

(** [connectionOption], the fields the pool sets ([Ctx] is the state of
    the parent context). *)
Record connectionOption : Type := mkOption {
  HeartbeatInterval : Z;
  ConnectionTimeout : Z;
  Ctx : bool;
  TLSConfig_ : option TLSConfig;
  Cached : bool
}.

Definition ConnectionOption : Type := connectionOption -> connectionOption.

(** Modelled from the spec: the option constructors passed by
    [deriveConnection] are not part of the available sources; each sets the
    connection option it is named after ("Connection options:
    { heartbeat_interval, connection_timeout, ..., tls_config,
    parent_cancellation_token, ... }"). *)
Definition ConnectionWithTimeout (d : Z) : ConnectionOption :=
  fun o => mkOption (HeartbeatInterval o) d (Ctx o) (TLSConfig_ o) (Cached o).
Definition ConnectionWithHeartbeatInterval (d : Z) : ConnectionOption :=
  fun o => mkOption d (ConnectionTimeout o) (Ctx o) (TLSConfig_ o) (Cached o).
Definition ConnectionWithTLS (c : option TLSConfig) : ConnectionOption :=
  fun o => mkOption (HeartbeatInterval o) (ConnectionTimeout o) (Ctx o) c (Cached o).
Definition ConnectionWithCached (b : bool) : ConnectionOption :=
  fun o => mkOption (HeartbeatInterval o) (ConnectionTimeout o) (Ctx o) (TLSConfig_ o) b.
Definition ConnectionWithContext (c : bool) : ConnectionOption :=
  fun o => mkOption (HeartbeatInterval o) (ConnectionTimeout o) c (TLSConfig_ o) (Cached o).

Definition second : Z := 1000000000%Z.

Definition ID (ch : t) : Z := id ch.

(** Modelled from the spec: [IsCached] and [IsFlagged] are called by the pool
    but are not part of the available sources; they read "Classification:
    cached vs transient (immutable at creation)" and the flagged bit. *)
Definition IsCached (ch : t) : bool := cached ch.
Definition IsFlagged (ch : t) : bool := flagged ch.

Definition Flag (f : bool) (ch : t) : t :=
  if negb (flagged ch) && f then set_flagged f ch else ch.

Definition isShutdown (ch : t) : bool := done ch.

Definition isClosed (ch : t) : bool :=
  flagged ch
  || match conn ch with None => true | Some h => hclosed h end
  || isShutdown ch.

Definition IsClosed (ch : t) : bool := isClosed ch.

(** [connect]: [d] is the answer of [amqp.DialConfig], consulted only when
    the connection is closed. *)
Definition connect (d : DialResult) (ch : t) : option goerror * t :=
  if negb (isClosed ch) then (None, ch)
  else
    match d with
    | DialErr err => (Some (Errorf_wv ErrConnectionFailed err), ch)
    | DialOk h =>
        (None,
         set_blockers (make 10)
           (set_errors (make 10)
              (set_conn (Some {| hid := h; hclosed := false |}) ch)))
    end.

Definition Connect (d : DialResult) (ch : t) : option goerror * t := connect d ch.

(** The loop of [pauseOnFlowControl], over the notifications buffered in
    [ch.blockers], with the state of the function's timer.  A closed and
    drained channel yields the zero [Blocking], whose [Active] is false: the
    same [return] as [default]. *)
Fixpoint pause_loop (pick : nat -> bool) (i : nat) (bs : list Blocking) (timer : Timer)
    (ch : t) : outcome (t * list Blocking) :=
  if isClosed ch then return_draining timer (ch, bs)
  else
    match bs with
    | [] => return_draining timer (ch, [])
    | blocker :: rest =>
        if negb (Active blocker) then return_draining timer (ch, rest)
        else
          match Timer_drain timer with
          | None => Blocked
          | Some timer =>
              let timer := Timer_Reset timer in
              if pick i then                           (* <-ch.catchShutdown() *)
                return_draining timer (cancel ch, rest)
              else                                     (* <-timer.C: continue  *)
                match Timer_receive (Timer_expire timer) with
                | None => Blocked
                | Some timer => pause_loop pick (S i) rest timer ch
                end
          end
    end.

Definition pauseOnFlowControl (pick : nat -> bool) (ch : t) : outcome t :=
  match pause_loop pick 0 (buf (blockers ch)) NewTimer ch with
  | Ret (ch', bs) =>
      Ret (set_blockers (mkChan bs (cap (blockers ch)) (closed (blockers ch))) ch')
  | Panic m => Panic m
  | Blocked => Blocked
  | More => More
  end.

Definition PauseOnFlowControl (pick : nat -> bool) (ch : t) : outcome t :=
  pauseOnFlowControl pick ch.

(** [Close]: [herr] is what the handle's own [Close()] answers. *)
Definition Close (herr : option goerror) (ch : t) : option goerror * t :=
  let ch := cancel ch in
  match conn ch with
  | Some h =>
      if negb (hclosed h)
      then (herr, set_conn (Some {| hid := hid h; hclosed := true |}) ch)
      else (None, ch)
  | None => (None, ch)
  end.

(** The loop of [error], over the errors buffered in [ch.errors]; [err] is
    the first error seen so far. *)
Fixpoint error_loop (pick : nat -> bool) (i : nat) (shutdown closed_ : bool)
    (es : list AmqpErr) (err : option goerror) : option goerror * list AmqpErr :=
  match es with
  | [] =>
      if shutdown || closed_ then (Some ErrConnectionClosed, [])
      else (err, [])                                   (* default *)
  | e :: rest =>
      if shutdown && pick i then (Some ErrConnectionClosed, es)
      else
        error_loop pick (S i) shutdown closed_ rest
          (match err with None => Some (Amqp e) | Some _ => err end)
  end.

Definition error (pick : nat -> bool) (ch : t) : option goerror * t :=
  let '(err, es) :=
    error_loop pick 0 (done ch) (closed (errors ch)) (buf (errors ch)) None in
  (err, set_errors (mkChan es (cap (errors ch)) (closed (errors ch))) ch).

Definition Error (pick : nat -> bool) (ch : t) : option goerror * t := error pick ch.

(** The [for retry := 0; ; retry++] loop of [recover], with the state of
    the function's timer.  The backoff is positive, so that with a token
    that has already fired the shutdown case is the one that is ready; with
    a live token the script tells whether the token fires before the timer
    expires. *)
Fixpoint recover_loop (script : list Attempt) (timer : Timer) (ch : t)
  : outcome (option goerror * t) :=
  match script with
  | [] => More
  | a :: rest =>
      match connect (dial a) ch with
      | (Some _, ch') =>
          let timer := Timer_Reset timer in
          if done ch' || cancelled a then              (* <-ch.catchShutdown() *)
            return_draining timer
              (Some (Errorf_w "connection recovery failed" ErrPoolClosed), cancel ch')
          else                                         (* <-timer.C *)
            match Timer_receive (Timer_expire timer) with
            | None => Blocked
            | Some timer =>
                match Timer_drain timer with
                | None => Blocked
                | Some timer => recover_loop rest timer ch'
                end
            end
      | (None, ch') => return_draining timer (None, set_flagged false ch')
      end
  end.

(** [recover].  The timer is created with duration 0 and drained: whether
    it has expired by then or not, it is left stopped with an empty
    channel. *)
Definition recover (sch : Sched) (script : list Attempt) (ch : t)
  : outcome (option goerror * t) :=
  let '(err, ch) := error (err_pick sch) ch in
  let healthy := match err with None => true | Some _ => false end in
  if healthy && negb (isClosed ch)
  then
    match pauseOnFlowControl (pause_pick sch) ch with
    | Ret ch => Ret (None, ch)
    | Panic m => Panic m
    | Blocked => Blocked
    | More => More
    end
  else
    match Timer_drain NewTimer with
    | None => Blocked
    | Some timer => recover_loop script timer ch
    end.

Definition Recover (sch : Sched) (script : list Attempt) (ch : t)
  : outcome (option goerror * t) := recover sch script ch.

(** A method called through a pointer: the receiver's fields are read
    ([ch.mu.Lock()]), which panics on nil. *)
Definition nil_dereference : string :=
  "runtime error: invalid memory address or nil pointer dereference".

Definition Recover_ptr (sch : Sched) (script : list Attempt) (p : option t)
  : outcome (option goerror * option t) :=
  match p with
  | None => Panic nil_dereference
  | Some ch =>
      match Recover sch script ch with
      | Ret (err, ch') => Ret (err, Some ch')
      | Panic m => Panic m
      | Blocked => Blocked
      | More => More
      end
  end.

Section NewConnection.

(** [url.Parse] *)
Variable url_Parse : string -> URL + goerror.

Definition default_option : connectionOption :=
  mkOption (15 * second) (30 * second) false None false.

(** [NewConnection], called by the pool with the options of
    [deriveConnection]; [d] is the answer of the first dial. *)
Definition NewConnection (connectUrl name_ : string) (id_ : Z)
    (options : list ConnectionOption) (d : DialResult) : option t * option goerror :=
  let opt := fold_left (fun o f => f o) options default_option in
  match url_Parse connectUrl with
  | inr err => (None, Some (Errorf_wv ErrInvalidConnectURL err))
  | inl u =>
      let u := match TLSConfig_ opt with Some _ => set_Scheme "amqps" u | None => u end in
      let conn_ :=
        mk (URL_String u) name_ id_ (Cached opt) false (TLSConfig_ opt) None
           (HeartbeatInterval opt) (ConnectionTimeout opt)
           (make 10) (make 10) (Ctx opt) in
      match Connect d conn_ with
      | (Some err, _) => (None, Some err)
      | (None, conn_) => (Some conn_, None)
      end
  end.

End NewConnection.

End Connection.

(** [%d] of [fmt.Sprintf] *)
Definition fmt_d (z : Z) : string := NilZero.string_of_int (Z.to_int z).

(** * ConnectionPool *)

Module ConnectionPool.

(** [type ConnectionPool struct]; [ctx] with its cancel function is the
    field [ctx]; the logger, the recover callback and the mutex have no
    field. *)
Record t : Type := mk {
  name : string;
  url : string;
  heartbeat : Z;
  connTimeout : Z;
  size : Z;
  tls : option TLSConfig;
  ctx : context;
  connections : chan Connection.t;
  transientID : Z;
  concurrentTransient : Z
}.

Definition set_ctx (c : context) (cp : t) : t :=
  mk (name cp) (url cp) (heartbeat cp) (connTimeout cp) (size cp) (tls cp) c
     (connections cp) (transientID cp) (concurrentTransient cp).

Definition set_connections (q : chan Connection.t) (cp : t) : t :=
  mk (name cp) (url cp) (heartbeat cp) (connTimeout cp) (size cp) (tls cp) (ctx cp)
     q (transientID cp) (concurrentTransient cp).

Definition set_transientID (n : Z) (cp : t) : t :=
  mk (name cp) (url cp) (heartbeat cp) (connTimeout cp) (size cp) (tls cp) (ctx cp)
     (connections cp) n (concurrentTransient cp).

Definition set_concurrentTransient (n : Z) (cp : t) : t :=
  mk (name cp) (url cp) (heartbeat cp) (connTimeout cp) (size cp) (tls cp) (ctx cp)
     (connections cp) (transientID cp) n.

Record connectionPoolOption : Type := mkOption {
  Name : string;
  Size : Z;
  Ctx : context;
  ConnHeartbeatInterval : Z;
  ConnTimeout : Z;
  TLSConfig_ : option TLSConfig
}.

Definition ConnectionPoolOption : Type := connectionPoolOption -> connectionPoolOption.

(** What the world and the scheduler contribute to a construction: the
    answer of the dial of connection [id], and whether the [select] of
    [initCachedConns] takes its [ctx.Done()] case when the send is ready as
    well. *)
Record InitWorld : Type := { dials : Z -> DialResult; init_pick : Z -> bool }.

Definition catchShutdown (cp : t) : bool := Done (ctx cp).

Definition nextTransientID (cp : t) : Z * t :=
  let id := transientID cp in
  (id, set_transientID (wrap64 (transientID cp + 1)) cp).

Definition incTransient (cp : t) : t :=
  set_concurrentTransient (wrap64 (concurrentTransient cp + 1)) cp.

Definition decTransient (cp : t) : t :=
  set_concurrentTransient (wrap64 (concurrentTransient cp - 1)) cp.

Section Pool.

(** [url.Parse], [url.ParseRequestURI] and [defaultAppName()] *)
Variable url_Parse : string -> URL + goerror.
Variable url_ParseRequestURI : string -> URL + goerror.
Variable defaultAppName : string.

(** [deriveConnection]; [d] is the answer of the dial.  The context the
    code passes as first argument reaches the available [NewConnection] as
    its context option; the logger and the recover callback are left out. *)
Definition deriveConnection (cp : t) (ctx_ : context) (id : Z) (cached : bool)
    (d : DialResult) : option Connection.t * option goerror :=
  let name_ :=
    if cached
    then (name cp ++ "-cached-connection-" ++ fmt_d id)%string
    else (name cp ++ "-transient-connection-" ++ fmt_d id)%string in
  Connection.NewConnection url_Parse (url cp) name_ id
    [ Connection.ConnectionWithContext (Done (WithCancel ctx_));
      Connection.ConnectionWithTimeout (connTimeout cp);
      Connection.ConnectionWithHeartbeatInterval (heartbeat cp);
      Connection.ConnectionWithTLS (tls cp);
      Connection.ConnectionWithCached cached ] d.

(** The loop of [initCachedConns]: [n] iterations are left, the next id is
    [id]. *)
Fixpoint initCachedConns_loop (w : InitWorld) (n : nat) (id : Z) (cp : t)
  : outcome (t * option goerror) :=
  match n with
  | O => Ret (cp, None)
  | S n' =>
      match deriveConnection cp (ctx cp) id true (dials w id) with
      | (_, Some err) => Ret (cp, Some (Errorf_wv ErrPoolInitializationFailed err))
      | (None, None) =>
          (* not reached: NewConnection returns a connection whenever err is nil *)
          Panic Connection.nil_dereference
      | (Some conn, None) =>
          match select (if init_pick w id then 1 else 0)
                       [send_ready (connections cp); Done (ctx cp)] with
          | Some O =>
              match send conn (connections cp) with
              | Ret q => initCachedConns_loop w n' (wrap64 (id + 1)) (set_connections q cp)
              | Panic m => Panic m
              | Blocked => Blocked
              | More => More
              end
          | Some _ =>
              Ret (cp, match ctx_Err (ctx cp) with
                       | Some e => Some (Errorf_wv ErrPoolInitializationFailed e)
                       | None => None
                       end)
          | None =>
              Ret (cp, Some (Errorf_ws ErrPoolInitializationFailed "pool channel buffer full"))
          end
      end
  end.

Definition initCachedConns (w : InitWorld) (cp : t) : outcome (t * option goerror) :=
  initCachedConns_loop w (Z.to_nat (size cp)) 0 cp.

(** [newConnectionPoolFromOption].  The first component of the result is
    the pool object as the call leaves it, whether or not the caller gets a
    pointer to it; the other two are the Go result pair. *)
Definition newConnectionPoolFromOption (connectUrl : string)
    (opt : connectionPoolOption) (w : InitWorld)
  : outcome (option t * (option t * option goerror)) :=
  match url_ParseRequestURI connectUrl with
  | inr err => Ret (None, (None, Some (Errorf_wv ErrInvalidConnectURL err)))
  | inl u =>
      let u := match TLSConfig_ opt with Some _ => set_Scheme "amqps" u | None => u end in
      if (Size opt <? 0)%Z then Panic "makechan: size out of range"
      else
        let cp :=
          mk (Name opt) (URL_String u) (ConnHeartbeatInterval opt)
             (ConnTimeout opt) (Size opt) (TLSConfig_ opt)
             (WithCancel (Ctx opt)) (make (Z.to_nat (Size opt))) 0 0 in
        match initCachedConns w cp with
        | Ret (cp, Some err) => Ret (Some cp, (None, Some err))
        | Ret (cp, None) => Ret (Some cp, (Some cp, None))
        | Panic m => Panic m
        | Blocked => Blocked
        | More => More
        end
  end.

Definition NewConnectionPool (ctx_ : context) (connectUrl : string) (numConns : Z)
    (options : list ConnectionPoolOption) (w : InitWorld)
  : outcome (option t * (option t * option goerror)) :=
  if (numConns <? 1)%Z
  then Ret (None, (None, Some (Errorf_wd errInvalidPoolSize numConns)))
  else
    let opt :=
      mkOption defaultAppName numConns ctx_ (15 * Connection.second)
               (30 * Connection.second) None in
    let opt := fold_left (fun o f => f o) options opt in
    newConnectionPoolFromOption connectUrl opt w.

End Pool.

(** [GetConnection].  [ctx_] is the caller's context, [pick] the case the
    scheduler prefers (0: receive, 1: [ctx.Done()], 2: shutdown); [sch] and
    [script] are consumed by [Recover].  The available [Recover] takes no
    context: a token that fires while it sleeps is the script's
    [cancelled]. *)
Definition GetConnection (ctx_ : context) (pick : nat) (sch : Sched)
    (script : list Attempt) (cp : t)
  : outcome (t * (option Connection.t * option goerror)) :=
  match select pick [recv_ready (connections cp); Done ctx_; catchShutdown cp] with
  | None => Blocked
  | Some 0%nat =>
      match recv (connections cp) with
      | None => Ret (cp, (None, Some (Errorf_w "connection pool" ErrClosed)))
      | Some (conn, q) =>
          let cp := set_connections q cp in
          if Connection.IsFlagged conn then
            match Connection.Recover sch script conn with
            | Ret (Some err, _) =>
                Ret (cp, (None, Some (Errorf_w "failed to get connection" err)))
            | Ret (None, conn) => Ret (cp, (Some conn, None))
            | Panic m => Panic m
            | Blocked => Blocked
            | More => More
            end
          else Ret (cp, (Some conn, None))
      end
  | Some 1%nat => Ret (cp, (None, ctx_Err ctx_))
  | Some _ => Ret (cp, (None, Some (Errorf_w "connection pool" ErrClosed)))
  end.

Section Transient.

Variable url_Parse : string -> URL + goerror.

(** [GetTransientConnection]; [d] is the answer of the first dial.  The
    deferred function runs on every return and increments the counter when
    the result [err] is nil. *)
Definition GetTransientConnection (ctx_ : context) (d : DialResult) (sch : Sched)
    (script : list Attempt) (cp : t)
  : outcome (t * (option Connection.t * option goerror)) :=
  let '(id, cp) := nextTransientID cp in
  match deriveConnection url_Parse cp ctx_ id false d with
  | (conn, None) => Ret (incTransient cp, (conn, None))
  | (conn, Some _) =>
      match Connection.Recover_ptr sch script conn with
      | Ret (Some err, _) =>
          Ret (cp, (None, Some (Errorf_w "failed to get transient connection" err)))
      | Ret (None, conn) => Ret (incTransient cp, (conn, None))
      | Panic m => Panic m
      | Blocked => Blocked
      | More => More
      end
  end.

End Transient.

(** [ReturnConnection]; [herr] is what closing the handle answers (it is
    discarded).  The result holds the pool and the connection object as the
    call leaves them. *)
Definition ReturnConnection (herr : option goerror) (conn : Connection.t)
    (err : option goerror) (cp : t) : outcome (t * Connection.t) :=
  if negb (Connection.IsCached conn) then
    let cp := decTransient cp in
    let '(_, conn) := Connection.Close herr conn in
    Ret (cp, conn)
  else
    let conn := Connection.Flag (flaggable err) conn in
    match select 0 [send_ready (connections cp)] with
    | Some _ =>
        match send conn (connections cp) with
        | Ret q => Ret (set_connections q cp, conn)
        | Panic m => Panic m
        | Blocked => Blocked
        | More => More
        end
    | None => Panic "connection pool connections buffer full: not supposed to happen"
    end.

(** [Close]: the context is cancelled and [size] goroutines each receive
    one connection and close it; [wg.Wait()] returns when all of them are
    done.  The result holds the pool and the connections it closed.  With
    fewer than [size] connections in the queue the remaining goroutines wait
    for a send, and on a closed channel they receive nil and close through a
    nil pointer.  [wg.Add] panics on a negative [size]. *)
Definition Close (cp : t) : outcome (t * list Connection.t) :=
  if (size cp <? 0)%Z then Panic "sync: negative WaitGroup counter"
  else
    let cp := set_ctx (cancel_ctx (ctx cp)) cp in
    let n := Z.to_nat (size cp) in
    let q := connections cp in
    if (List.length (buf q) <? n)%nat then
      if closed q then Panic Connection.nil_dereference else Blocked
    else
      Ret (set_connections (mkChan (skipn n (buf q)) (cap q) (closed q)) cp,
           map (fun conn => snd (Connection.Close None conn)) (firstn n (buf q))).

Definition StatTransientActive (cp : t) : Z := concurrentTransient cp.
Definition StatCachedIdle (cp : t) : Z := len (connections cp).
Definition StatCachedActive (cp : t) : Z := wrap64 (size cp - len (connections cp)).
Definition Size_ (cp : t) : Z := size cp.
Definition Name_ (cp : t) : string := name cp.

End ConnectionPool.

(** * Session *)

Module Session.

(** The methods of [Session] the session pool invokes. *)
Inductive call : Type := CallRecover | CallFlushConfirms | CallClose.

(** Modelled from the spec: the [Session] type and its methods are used by
    the session pool but are not part of the available sources.  A Session
    "carries: id (monotonic per pool, with a separate counter for
    transient), buffer size (pending confirmations queue capacity),
    confirmable flag, cached flag, auto-close-connection flag" and is bound
    to a Connection, referred to here by its unique name.  Of its behaviour
    only the sequence of method calls the pool made on it is kept, oldest
    first, in [calls]. *)
Record t : Type := mk {
  id : Z;
  conn : string;
  bufferSize : Z;
  confirmable : bool;
  cached : bool;
  autoCloseConn : bool;
  ctx : context;
  calls : list call
}.

Definition called (c : call) (s : t) : t :=
  mk (id s) (conn s) (bufferSize s) (confirmable s) (cached s) (autoCloseConn s)
     (ctx s) (calls s ++ [c]).

(** Modelled from the spec: the options of [NewSession] and their
    constructors are not part of the available sources; each constructor
    sets the option it is named after. *)
Record sessionOption : Type := mkOption {
  Ctx : context;
  BufferSize : Z;
  Cached : bool;
  Confirmable : bool;
  AutoCloseConn : bool
}.

Definition SessionOption : Type := sessionOption -> sessionOption.

Definition SessionWithContext (c : context) : SessionOption :=
  fun o => mkOption c (BufferSize o) (Cached o) (Confirmable o) (AutoCloseConn o).
Definition SessionWithBufferSize (n : Z) : SessionOption :=
  fun o => mkOption (Ctx o) n (Cached o) (Confirmable o) (AutoCloseConn o).
Definition SessionWithCached (b : bool) : SessionOption :=
  fun o => mkOption (Ctx o) (BufferSize o) b (Confirmable o) (AutoCloseConn o).
Definition SessionWithConfirms (b : bool) : SessionOption :=
  fun o => mkOption (Ctx o) (BufferSize o) (Cached o) b (AutoCloseConn o).
Definition SessionWithAutoCloseConnection (b : bool) : SessionOption :=
  fun o => mkOption (Ctx o) (BufferSize o) (Cached o) (Confirmable o) b.

Definition default_option : sessionOption := mkOption None 0 false false false.

(** Modelled from the spec: [NewSession] opens a session on [conn] with
    the given options; [opened] is what the broker answers
    ([handle.open_session() -> Session | Error]). *)
Definition NewSession (conn_ : option Connection.t) (id_ : Z)
    (options : list SessionOption) (opened : option goerror)
  : outcome (option t * option goerror) :=
  match conn_ with
  | None => Panic Connection.nil_dereference
  | Some c =>
      let opt := fold_left (fun o f => f o) options default_option in
      match opened with
      | Some err => Ret (None, Some err)
      | None =>
          Ret (Some (mk id_ (Connection.name c) (BufferSize opt) (Confirmable opt)
                        (Cached opt) (AutoCloseConn opt) (WithCancel (Ctx opt)) []),
               None)
      end
  end.

Definition IsCached (s : t) : bool := cached s.

(** Modelled from the spec: [Close], [Recover] and [flushConfirms] of the
    absent [Session] type.  [r] is what the recovery returns. *)
Definition Close (s : t) : t := called CallClose s.
Definition Recover (r : option goerror) (s : t) : option goerror * t := (r, called CallRecover s).
Definition flushConfirms (s : t) : t := called CallFlushConfirms s.

End Session.

(** * SessionPool *)

Module SessionPool.

(** [type SessionPool struct].  The pointer [pool] has no field: the
    operations that reach the connection pool take and return its state. *)
Record t : Type := mk {
  transientID : Z;
  size : Z;
  bufferSize : Z;
  confirmable : bool;
  sessions : chan Session.t;
  ctx : context
}.

Definition set_sessions (q : chan Session.t) (sp : t) : t :=
  mk (transientID sp) (size sp) (bufferSize sp) (confirmable sp) q (ctx sp).

Definition set_transientID (n : Z) (sp : t) : t :=
  mk n (size sp) (bufferSize sp) (confirmable sp) (sessions sp) (ctx sp).

Record sessionPoolOption : Type := mkOption {
  Size : Z;
  Confirmable : bool;
  BufferSize : Z;
  Ctx : context
}.

Definition SessionPoolOption : Type := sessionPoolOption -> sessionPoolOption.

Definition Size_ (sp : t) : Z := size sp.

Definition catchShutdown (sp : t) : bool := Done (ctx sp).

(** [deriveSession]; [opened] is the broker's answer to opening the
    session. *)
Definition deriveSession (sp : t) (conn : option Connection.t) (id : Z) (cached : bool)
    (opened : option goerror) : outcome (option Session.t * option goerror) :=
  Session.NewSession conn id
    [ Session.SessionWithContext (ctx sp);
      Session.SessionWithBufferSize (size sp);
      Session.SessionWithCached cached;
      Session.SessionWithConfirms (confirmable sp) ] opened.

(** [GetSession]; [pick] is the case the scheduler prefers (0: shutdown,
    1: receive). *)
Definition GetSession (pick : nat) (sp : t)
  : outcome (t * (option Session.t * option goerror)) :=
  match select pick [catchShutdown sp; recv_ready (sessions sp)] with
  | None => Blocked
  | Some 0%nat => Ret (sp, (None, Some ErrClosed))
  | Some _ =>
      match recv (sessions sp) with
      | None => Ret (sp, (None, Some (Errorf_w "failed to get session" ErrClosed)))
      | Some (session, q) => Ret (set_sessions q sp, (Some session, None))
      end
  end.

(** [ReturnSession]; [r] is what [session.Recover()] returns when it is
    called, [pick] the case the scheduler prefers in the final [select]
    (0: shutdown, 1: send).  The result holds the pool and the session
    object as the call leaves them. *)
Definition ReturnSession (r : option goerror) (pick : nat) (session : Session.t)
    (erred : bool) (sp : t) : outcome (t * Session.t) :=
  if negb (Session.IsCached session) then Ret (sp, Session.Close session)
  else
    let enqueue (session : Session.t) : outcome (t * Session.t) :=
      match select pick [catchShutdown sp; send_ready (sessions sp)] with
      | None => Blocked
      | Some 0%nat => Ret (sp, Session.Close session)
      | Some _ =>
          match send session (sessions sp) with
          | Ret q => Ret (set_sessions q sp, session)
          | Panic m => Panic m
          | Blocked => Blocked
          | More => More
          end
      end in
    if erred then
      match Session.Recover r session with
      | (Some _, session) => Ret (sp, session)
      | (None, session) => enqueue session
      end
    else enqueue (Session.flushConfirms session).

(** [Close]: every session buffered in the queue is received and closed;
    the result holds the pool and the sessions it closed.  A closed channel
    would deliver nil sessions without end, each closed through a nil
    pointer. *)
Definition Close (sp : t) : outcome (t * list Session.t) :=
  if closed (sessions sp) then Panic Connection.nil_dereference
  else
    Ret (set_sessions (mkChan [] (cap (sessions sp)) false) sp,
         map Session.Close (buf (sessions sp))).

(** The session pool calls the connection pool through the signatures of
    an earlier revision, [GetConnection()] and [ReturnConnection(conn, flag)].
    They are mapped onto the available ones: a background context, and an
    error that is flaggable exactly when [flag] is set. *)
Definition pool_GetConnection (pick : nat) (sch : Sched) (script : list Attempt)
    (cp : ConnectionPool.t) :=
  ConnectionPool.GetConnection None pick sch script cp.

Definition pool_ReturnConnection (conn : Connection.t) (flag : bool)
    (cp : ConnectionPool.t) :=
  ConnectionPool.ReturnConnection None conn
    (if flag then Some (Opaque "session could not be derived") else None) cp.

(** One round of the retry loop of [initCachedSession], as the world plays
    it: the oracles of [GetConnection] and the broker's answer to opening
    the session. *)
Record InitRound : Type := {
  get_pick : nat;
  get_sched : Sched;
  get_script : list Attempt;
  opened : option goerror
}.

(** [initCachedSession]: the rounds left over are returned with the result. *)
Fixpoint initCachedSession (rounds : list InitRound) (id : Z)
    (cp : ConnectionPool.t) (sp : t)
  : outcome (list InitRound * ConnectionPool.t * (option Session.t * option goerror)) :=
  match rounds with
  | [] => More
  | r :: rest =>
      match pool_GetConnection (get_pick r) (get_sched r) (get_script r) cp with
      | Ret (cp, (_, Some err)) => Ret (rest, cp, (None, Some err))
      | Ret (cp, (None, None)) => Panic Connection.nil_dereference
      | Ret (cp, (Some conn, None)) =>
          match deriveSession sp (Some conn) id true (opened r) with
          | Ret (_, Some _) =>
              match pool_ReturnConnection conn true cp with
              | Ret (cp, _) => initCachedSession rest id cp sp
              | Panic m => Panic m
              | Blocked => Blocked
              | More => More
              end
          | Ret (session, None) =>
              match pool_ReturnConnection conn false cp with
              | Ret (cp, _) => Ret (rest, cp, (session, None))
              | Panic m => Panic m
              | Blocked => Blocked
              | More => More
              end
          | Panic m => Panic m
          | Blocked => Blocked
          | More => More
          end
      | Panic m => Panic m
      | Blocked => Blocked
      | More => More
      end
  end.

(** The loop of [initCachedSessions]: [n] iterations are left, the next id
    is [i]. *)
Fixpoint initCachedSessions_loop (rounds : list InitRound) (n : nat) (i : Z)
    (cp : ConnectionPool.t) (sp : t)
  : outcome (ConnectionPool.t * t * option goerror) :=
  match n with
  | O => Ret (cp, sp, None)
  | S n' =>
      match initCachedSession rounds i cp sp with
      | Ret (_, cp, (_, Some err)) => Ret (cp, sp, Some err)
      | Ret (_, cp, (None, None)) => Panic Connection.nil_dereference
      | Ret (rounds, cp, (Some session, None)) =>
          if send_ready (sessions sp) then
            match send session (sessions sp) with
            | Ret q => initCachedSessions_loop rounds n' (wrap64 (i + 1)) cp (set_sessions q sp)
            | Panic m => Panic m
            | Blocked => Blocked
            | More => More
            end
          else Blocked
      | Panic m => Panic m
      | Blocked => Blocked
      | More => More
      end
  end.

Definition initCachedSessions (rounds : list InitRound) (cp : ConnectionPool.t) (sp : t)
  : outcome (ConnectionPool.t * t * option goerror) :=
  initCachedSessions_loop rounds (Z.to_nat (size sp)) 0 cp sp.

Definition newSessionPoolFromOption (pool : ConnectionPool.t) (opt : sessionPoolOption)
    (rounds : list InitRound)
  : outcome (ConnectionPool.t * (option t * option goerror)) :=
  if (Size opt <? 0)%Z then Panic "makechan: size out of range"
  else
    let sessionPool :=
      mk 0 (Size opt) (BufferSize opt) (Confirmable opt)
         (make (Z.to_nat (Size opt))) (WithCancel (Ctx opt)) in
    match initCachedSessions rounds pool sessionPool with
    | Ret (pool, _, Some err) => Ret (pool, (None, Some err))
    | Ret (pool, sessionPool, None) => Ret (pool, (Some sessionPool, None))
    | Panic m => Panic m
    | Blocked => Blocked
    | More => More
    end.

Definition NewSessionPool (pool : ConnectionPool.t) (size_ : Z)
    (options : list SessionPoolOption) (rounds : list InitRound)
  : outcome (ConnectionPool.t * (option t * option goerror)) :=
  if (size_ <? 1)%Z then Panic "max pool size is negative or 0"
  else
    let opt := mkOption size_ false 1 (ConnectionPool.ctx pool) in
    let opt := fold_left (fun o f => f o) options opt in
    newSessionPoolFromOption pool opt rounds.

Section Transient.

Variable url_Parse : string -> URL + goerror.

(** [GetTransientSession]; [d], [sch] and [script] are consumed by
    [GetTransientConnection], [opened] by [NewSession]. *)
Definition GetTransientSession (ctx_ : context) (d : DialResult) (sch : Sched)
    (script : list Attempt) (opened : option goerror)
    (cp : ConnectionPool.t) (sp : t)
  : outcome (ConnectionPool.t * t * (option Session.t * option goerror)) :=
  match ConnectionPool.GetTransientConnection url_Parse ctx_ d sch script cp with
  | Ret (cp, (_, Some err)) => Ret (cp, sp, (None, Some err))
  | Ret (cp, (conn, None)) =>
      let transientId := wrap64 (transientID sp + 1) in
      let sp := set_transientID transientId sp in
      match
        Session.NewSession conn transientId
          [ Session.SessionWithContext ctx_;
            Session.SessionWithBufferSize (size sp);
            Session.SessionWithConfirms (confirmable sp);
            Session.SessionWithCached false;
            Session.SessionWithAutoCloseConnection true ] opened
      with
      | Ret r => Ret (cp, sp, r)
      | Panic m => Panic m
      | Blocked => Blocked
      | More => More
      end
  | Panic m => Panic m
  | Blocked => Blocked
  | More => More
  end.

End Transient.

End SessionPool.

(** ** Predicates and example values used by the statements below *)

(** [recover] ends its retry loop through a dial that succeeded: the rounds
    before it failed without the token firing, and the handle it returned is
    the one now bound. *)
Definition reaches_successful_dial (script : list Attempt) (ch' : Connection.t) : Prop :=
  exists pre a post h,
    script = pre ++ a :: post
    /\ Forall (fun x => (exists e, dial x = DialErr e) /\ cancelled x = false) pre
    /\ dial a = DialOk h
    /\ Connection.conn ch' = Some {| hid := h; hclosed := false |}.

(** ** The operations of a Connection, as a caller sequences them *)

Inductive op : Type :=
| OpFlag (flagged : bool)
| OpConnect (d : DialResult)
| OpPauseOnFlowControl (pick : nat -> bool)
| OpIsClosed
| OpClose (herr : option goerror)
| OpError (pick : nat -> bool)
| OpRecover (sch : Sched) (script : list Attempt).

(** The state of the connection after one operation. *)
Definition run (o : op) (ch : Connection.t) : outcome Connection.t :=
  match o with
  | OpFlag b => Ret (Connection.Flag b ch)
  | OpConnect d => Ret (snd (Connection.Connect d ch))
  | OpPauseOnFlowControl pick => Connection.PauseOnFlowControl pick ch
  | OpIsClosed => Ret ch
  | OpClose herr => Ret (snd (Connection.Close herr ch))
  | OpError pick => Ret (snd (Connection.Error pick ch))
  | OpRecover sch script =>
      match Connection.Recover sch script ch with
      | Ret (_, ch') => Ret ch'
      | Panic m => Panic m
      | Blocked => Blocked
      | More => More
      end
  end.

Fixpoint run_ops (ops : list op) (ch : Connection.t) : outcome Connection.t :=
  match ops with
  | [] => Ret ch
  | o :: rest =>
      match run o ch with
      | Ret ch' => run_ops rest ch'
      | Panic m => Panic m
      | Blocked => Blocked
      | More => More
      end
  end.

(** A connection of a pool, healthy and idle. *)
Definition conn0 : Connection.t :=
  Connection.mk "amqp://broker:5672/" "app-cached-connection-0" 0 true false None
    (Some {| hid := 1; hclosed := false |}) (15 * Connection.second)
    (30 * Connection.second) (make 10) (make 10) false.

(** The same connection on a later handle. *)
Definition conn1 : Connection.t :=
  Connection.mk "amqp://broker:5672/" "app-cached-connection-0" 0 true false None
    (Some {| hid := 2; hclosed := false |}) (15 * Connection.second)
    (30 * Connection.second) (make 10) (make 10) false.

Definition sched0 : Sched := {| err_pick := fun _ => false; pause_pick := fun _ => false |}.

(** The broker is down for one dial and back for the next. *)
Definition script0 : list Attempt :=
  [ {| dial := DialErr (Opaque "connection refused"); cancelled := false |};
    {| dial := DialOk 2; cancelled := false |} ].

(** A pool of two connections; the one at the head of the queue was
    returned flagged. *)
Definition pool0 : ConnectionPool.t :=
  ConnectionPool.mk "app" "amqp://broker:5672/" (15 * Connection.second)
    (30 * Connection.second) 2 None None
    (mkChan [Connection.Flag true conn0; conn0] 2 false) 0 0.

(** A URL parser that accepts its input, for the examples. *)
Definition parse0 : string -> URL + goerror :=
  fun s => inl {| Scheme := "amqp"; Rest := s |}.

(** A session pool of three sessions with the default buffer size. *)
Definition spool0 : SessionPool.t := SessionPool.mk 0 3 1 false (make 3) None.



Definition spool1 : SessionPool.t :=
  SessionPool.mk 0 3 1 false
    (mkChan [Session.mk 1 "app-cached-connection-1" 3 false true false None [];
             Session.mk 2 "app-cached-connection-0" 3 false true false None []] 3 false)
    None.

(** Options of a pool of two connections, and a broker that accepts the
    first dial and refuses the second. *)
Definition option2 : ConnectionPool.connectionPoolOption :=
  ConnectionPool.mkOption "app" 2 None (15 * Connection.second)
    (30 * Connection.second) None.

Definition world2 : ConnectionPool.InitWorld :=
  {| ConnectionPool.dials :=
       fun id => if (id =? 0)%Z then DialOk 1 else DialErr (Opaque "connection refused");
     ConnectionPool.init_pick := fun _ => false |}.

(** A connection nobody closed: its handle is open and its token live. *)
Definition still_open (c : Connection.t) : Prop :=
  Connection.IsClosed c = false /\ Connection.done c = false.

(** ** Further example values *)

(** Two close notifications, as the broker client delivers them. *)
Definition amqp_err1 : AmqpErr := {| Code := 320; Reason := "CONNECTION_FORCED" |}.
Definition amqp_err2 : AmqpErr := {| Code := 501; Reason := "FRAME_ERROR" |}.

(** [conn0] with the two notifications pending on its error channel. *)
Definition conn_pending : Connection.t :=
  Connection.set_errors (mkChan [amqp_err1; amqp_err2] 10 false) conn0.

(** [conn0] with flow control switched on twice and then off, and one more
    notification behind. *)
Definition conn_blocked : Connection.t :=
  Connection.set_blockers
    (mkChan [ {| Active := true; BlockReason := "low on memory" |};
              {| Active := true; BlockReason := "low on disk" |};
              {| Active := false; BlockReason := "" |};
              {| Active := true; BlockReason := "low on memory" |} ] 10 false)
    conn0.

(** The ids the loop of [initCachedConns] goes through: [n] of them from
    [id] on. *)
Fixpoint ids_from (id : Z) (n : nat) : list Z :=
  match n with
  | O => []
  | S n' => id :: ids_from (id + 1) n'
  end.

(** The cached connection number [id] of the pool named [pool_name], as it
    sits idle in the queue after construction. *)
Definition idle_cached (pool_name : string) (id : Z) (c : Connection.t) : Prop :=
  still_open c
  /\ Connection.flagged c = false
  /\ Connection.IsCached c = true
  /\ Connection.ID c = id
  /\ Connection.name c = (pool_name ++ "-cached-connection-" ++ fmt_d id)%string.

(** The second connection of the pool of [conn0]. *)
Definition conn_b : Connection.t :=
  Connection.mk "amqp://broker:5672/" "app-cached-connection-1" 1 true false None
    (Some {| hid := 3; hclosed := false |}) (15 * Connection.second)
    (30 * Connection.second) (make 10) (make 10) false.

(** A pool of two healthy connections, all idle. *)
Definition pool_idle : ConnectionPool.t :=
  ConnectionPool.mk "app" "amqp://broker:5672/" (15 * Connection.second)
    (30 * Connection.second) 2 None None (mkChan [conn0; conn_b] 2 false) 0 0.

(** A broker that accepts every dial. *)
Definition world_up : ConnectionPool.InitWorld :=
  {| ConnectionPool.dials := fun id => DialOk (Z.to_nat id);
     ConnectionPool.init_pick := fun _ => true |}.

(** The cached sessions a session pool of size [sz] derives on the
    connections [cs], one each, with ids from [i] on. *)
Fixpoint sessions_on (sz : Z) (cf : bool) (cx : context) (i : Z)
    (cs : list Connection.t) : list Session.t :=
  match cs with
  | [] => []
  | c :: cs' =>
      Session.mk i (Connection.name c) sz cf true false cx []
      :: sessions_on sz cf cx (i + 1) cs'
  end.

(** A world in which the pool is asked again and the broker opens the
    session. *)
Definition round_ok : SessionPool.InitRound :=
  {| SessionPool.get_pick := 2; SessionPool.get_sched := sched0;
     SessionPool.get_script := []; SessionPool.opened := None |}.

(** * Properties of a Connection *)

Section ConnectionFacts.

Import Connection.

Lemma error_frame (pick : nat -> bool) (ch : Connection.t) :
  flagged (snd (error pick ch)) = flagged ch
  /\ conn (snd (error pick ch)) = conn ch
  /\ done (snd (error pick ch)) = done ch
  /\ blockers (snd (error pick ch)) = blockers ch.
Proof.
  unfold error.
  destruct (error_loop pick 0 (done ch) (closed (errors ch)) (buf (errors ch)) None).
  simpl. auto.
Qed.

Lemma error_isClosed (pick : nat -> bool) (ch : Connection.t) :
  isClosed (snd (error pick ch)) = isClosed ch.
Proof.
  destruct (error_frame pick ch) as (Hf & Hc & Hd & _).
  unfold isClosed, isShutdown. now rewrite Hf, Hc, Hd.
Qed.

(** A return under the deferred drain, when it returns, returns the value
    it was given. *)
Lemma return_draining_ret {A : Type} (timer : Timer) (r r' : A) :
  return_draining timer r = Ret r' -> r' = r.
Proof.
  unfold return_draining. destruct (Timer_drain timer); [|discriminate].
  intros H. now inversion H.
Qed.

Lemma pause_loop_frame (pick : nat -> bool) (bs : list Blocking) :
  forall i timer ch ch' bs',
    pause_loop pick i bs timer ch = Ret (ch', bs') ->
    flagged ch' = flagged ch /\ conn ch' = conn ch /\ errors ch' = errors ch.
Proof.
  induction bs as [|b rest IH]; intros i timer ch ch' bs'; simpl.
  - destruct (isClosed ch); intros H; apply return_draining_ret in H;
      inversion H; auto.
  - destruct (isClosed ch).
    + intros H; apply return_draining_ret in H; inversion H; auto.
    + destruct (Active b); simpl.
      * destruct (Timer_drain timer) as [t1|]; [|discriminate].
        destruct (pick i).
        -- intros H; apply return_draining_ret in H; inversion H; auto.
        -- apply IH.
      * intros H; apply return_draining_ret in H; inversion H; auto.
Qed.

Lemma pauseOnFlowControl_frame (pick : nat -> bool) (ch ch' : Connection.t) :
  pauseOnFlowControl pick ch = Ret ch' ->
  flagged ch' = flagged ch /\ conn ch' = conn ch /\ errors ch' = errors ch.
Proof.
  unfold pauseOnFlowControl.
  destruct (pause_loop pick 0 (buf (blockers ch)) NewTimer ch) as [[c1 bs]| | |] eqn:Hp;
    try discriminate.
  intros H. inversion H. subst. simpl.
  exact (pause_loop_frame _ _ _ _ _ _ _ Hp).
Qed.

Lemma isClosed_flagged (ch : Connection.t) : flagged ch = true -> isClosed ch = true.
Proof. unfold isClosed. now intros ->. Qed.

Lemma connect_keeps_flagged (d : DialResult) (ch : Connection.t) :
  flagged (snd (connect d ch)) = flagged ch.
Proof.
  unfold connect. destruct (isClosed ch); simpl; auto.
  destruct d; reflexivity.
Qed.

Lemma connect_error_frame (d : DialResult) (ch ch' : Connection.t) (e : goerror) :
  connect d ch = (Some e, ch') -> ch' = ch /\ exists e', d = DialErr e'.
Proof.
  unfold connect. destruct (isClosed ch); simpl; [|discriminate].
  destruct d; [discriminate|]. intros H. inversion H. eauto.
Qed.

(** A closed connection that connects without error was dialled. *)
Lemma connect_closed_ok (d : DialResult) (ch ch' : Connection.t) :
  isClosed ch = true -> connect d ch = (None, ch') ->
  exists h, d = DialOk h
    /\ conn ch' = Some {| hid := h; hclosed := false |}
    /\ errors ch' = make 10
    /\ flagged ch' = flagged ch
    /\ done ch' = done ch.
Proof.
  unfold connect. intros ->. simpl.
  destruct d; [|discriminate]. intros H. inversion H. subst. simpl. eauto 6.
Qed.

Lemma recover_loop_ok_unflagged (script : list Attempt) :
  forall timer ch ch',
    recover_loop script timer ch = Ret (None, ch') -> flagged ch' = false.
Proof.
  induction script as [|a rest IH]; intros timer ch ch'; simpl; [discriminate|].
  destruct (connect (dial a) ch) as [[e|] ch1] eqn:Hc.
  - destruct (done ch1 || cancelled a).
    + intros H. apply return_draining_ret in H. discriminate.
    + discriminate.
  - intros H. apply return_draining_ret in H. inversion H. reflexivity.
Qed.

(** The only error of the retry loop is the one wrapping [ErrPoolClosed];
    the connection is then as it was, with the token fired. *)
Lemma recover_loop_error (script : list Attempt) :
  forall timer ch ch' e,
    recover_loop script timer ch = Ret (Some e, ch') ->
    e = Errorf_w "connection recovery failed" ErrPoolClosed
    /\ ch' = cancel ch.
Proof.
  induction script as [|a rest IH]; intros timer ch ch' e; simpl; [discriminate|].
  destruct (connect (dial a) ch) as [[e1|] ch1] eqn:Hc.
  - apply connect_error_frame in Hc. destruct Hc as [-> _].
    destruct (done ch || cancelled a).
    + intros H. apply return_draining_ret in H. inversion H. subst. auto.
    + discriminate.
  - intros H. apply return_draining_ret in H. discriminate.
Qed.

(** With its timer stopped and drained, as [recover] starts it, the retry
    loop never returns success: after a dial that succeeds the deferred
    drain of the timer receives from an empty channel, and so does the
    drain that follows a sleep that was not cancelled. *)
Lemma recover_loop_no_success (script : list Attempt) (ch ch' : Connection.t) :
  recover_loop script Timer_idle ch <> Ret (None, ch').
Proof.
  destruct script as [|a rest]; simpl; [discriminate|].
  destruct (connect (dial a) ch) as [[e|] ch1].
  - destruct (done ch1 || cancelled a); discriminate.
  - discriminate.
Qed.

Lemma recover_closed (sch : Sched) (script : list Attempt) (ch : Connection.t) :
  isClosed ch = true ->
  recover sch script ch = recover_loop script Timer_idle (snd (error (err_pick sch) ch)).
Proof.
  intros Hf. unfold recover.
  pose proof (error_isClosed (err_pick sch) ch) as Hc.
  destruct (error (err_pick sch) ch) as [e ch1]. simpl in *.
  rewrite Hc, Hf. now rewrite andb_false_r.
Qed.

Lemma recover_flagged (sch : Sched) (script : list Attempt) (ch : Connection.t) :
  flagged ch = true ->
  recover sch script ch = recover_loop script Timer_idle (snd (error (err_pick sch) ch)).
Proof. intros Hf. apply recover_closed. now apply isClosed_flagged. Qed.

(** A recovery that returns success leaves the connection unflagged. *)
Lemma recover_ok_unflagged (sch : Sched) (script : list Attempt) (ch ch' : Connection.t) :
  recover sch script ch = Ret (None, ch') -> flagged ch' = false.
Proof.
  unfold recover.
  destruct (error (err_pick sch) ch) as [e ch1]. simpl in *.
  destruct (match e with None => true | Some _ => false end && negb (isClosed ch1)) eqn:Hh.
  - destruct (pauseOnFlowControl (pause_pick sch) ch1) as [c2| | |] eqn:Hp; try discriminate.
    intros H. inversion H. subst.
    destruct (pauseOnFlowControl_frame _ _ _ Hp) as (-> & _).
    apply andb_prop in Hh. destruct Hh as [_ Hh].
    unfold isClosed in Hh. destruct (flagged ch1); [discriminate|reflexivity].
  - simpl. apply recover_loop_ok_unflagged.
Qed.

(** A recovery that fails returns an error wrapping [ErrPoolClosed]. *)
Lemma recover_error (sch : Sched) (script : list Attempt) (ch ch' : Connection.t)
    (e : goerror) :
  recover sch script ch = Ret (Some e, ch') ->
  e = Errorf_w "connection recovery failed" ErrPoolClosed.
Proof.
  unfold recover.
  destruct (error (err_pick sch) ch) as [e1 ch1].
  destruct (match e1 with None => true | Some _ => false end && negb (isClosed ch1)).
  - destruct (pauseOnFlowControl (pause_pick sch) ch1); discriminate.
  - simpl. intros H. now apply recover_loop_error in H.
Qed.

(** On a flagged connection [recover] never returns success. *)
Lemma recover_flagged_no_success (sch : Sched) (script : list Attempt)
    (ch ch' : Connection.t) :
  flagged ch = true -> recover sch script ch <> Ret (None, ch').
Proof.
  intros Hf. rewrite (recover_flagged _ _ _ Hf). apply recover_loop_no_success.
Qed.

End ConnectionFacts.

Section FlagFacts.

Import Connection.

Lemma set_flagged_same (ch : Connection.t) : set_flagged (flagged ch) ch = ch.
Proof. now destruct ch. Qed.

Lemma Flag_spec (b : bool) (ch : Connection.t) :
  flagged (Flag b ch) = flagged ch || b
  /\ set_flagged (flagged ch) (Flag b ch) = ch
  /\ (b = false \/ flagged ch = true -> Flag b ch = ch).
Proof.
  unfold Flag. destruct ch as [u n i c f tl cn hb ct es bs dn]. simpl.
  destruct f, b; simpl; repeat split; auto; intros [H|H]; discriminate.
Qed.

Lemma recover_error_keeps_flagged (sch : Sched) (script : list Attempt)
    (ch ch' : Connection.t) (e : goerror) :
  recover sch script ch = Ret (Some e, ch') -> flagged ch' = flagged ch.
Proof.
  unfold recover.
  pose proof (error_frame (err_pick sch) ch) as (Hf & _).
  destruct (error (err_pick sch) ch) as [e1 ch1]. simpl in Hf.
  destruct (match e1 with None => true | Some _ => false end && negb (isClosed ch1)).
  - destruct (pauseOnFlowControl (pause_pick sch) ch1); discriminate.
  - simpl. intros H. apply recover_loop_error in H. destruct H as [_ ->]. exact Hf.
Qed.

(** No operation that returns clears the flag. *)
Lemma run_keeps_flagged (o : op) (ch ch' : Connection.t) :
  run o ch = Ret ch' -> flagged ch = true -> flagged ch' = true.
Proof.
  intros Hrun Hf. destruct o; simpl in Hrun.
  - inversion Hrun; subst. destruct (Flag_spec flagged0 ch) as (H & _).
    now rewrite H, Hf.
  - inversion Hrun; subst. unfold Connect.
    now rewrite connect_keeps_flagged.
  - unfold PauseOnFlowControl in Hrun.
    destruct (pauseOnFlowControl_frame _ _ _ Hrun) as (H & _). congruence.
  - inversion Hrun; subst. exact Hf.
  - inversion Hrun; subst. unfold Close. simpl.
    destruct (conn ch) as [h|]; simpl; [|exact Hf].
    destruct (hclosed h); simpl; exact Hf.
  - inversion Hrun; subst. unfold Error.
    destruct (error_frame pick ch) as (H & _). congruence.
  - unfold Recover in *.
    destruct (recover sch script ch) as [[[e|] c1]| | |] eqn:Hr; try discriminate.
    + inversion Hrun; subst. apply recover_error_keeps_flagged in Hr. congruence.
    + exfalso. exact (recover_flagged_no_success _ _ _ _ Hf Hr).
Qed.

Lemma run_ops_keeps_flagged (ops : list op) :
  forall ch ch', run_ops ops ch = Ret ch' -> flagged ch = true -> flagged ch' = true.
Proof.
  induction ops as [|o rest IH]; intros ch ch' Hrun Hf; simpl in Hrun.
  - inversion Hrun; subst. exact Hf.
  - destruct (run o ch) as [c1| | |] eqn:Ho; try discriminate.
    apply (IH c1); [exact Hrun|]. exact (run_keeps_flagged _ _ _ Ho Hf).
Qed.

End FlagFacts.

(** C8.  On every Connection and along every sequence of its operations:
    [Flag b] sets the flagged bit to [flagged || b] and changes nothing
    else, so [Flag false] and [Flag] on a flagged Connection leave it as it
    is; and whenever the bit goes from set to clear, the sequence holds a
    [Recover], started on a flagged Connection, that returned success after
    a dial that succeeded. *)
Theorem flag_sticky_until_recover_dials (ops : list op) (ch ch' : Connection.t) :
  run_ops ops ch = Ret ch' ->
  (forall b, ops = [OpFlag b] ->
     Connection.flagged ch' = Connection.flagged ch || b
     /\ Connection.set_flagged (Connection.flagged ch) ch' = ch
     /\ (b = false \/ Connection.flagged ch = true -> ch' = ch))
  /\ (Connection.flagged ch = true -> Connection.flagged ch' = false ->
      exists pre sch script post c1 c2,
        ops = pre ++ OpRecover sch script :: post
        /\ run_ops pre ch = Ret c1
        /\ Connection.flagged c1 = true
        /\ Connection.Recover sch script c1 = Ret (None, c2)
        /\ Connection.flagged c2 = false
        /\ reaches_successful_dial script c2
        /\ run_ops post c2 = Ret ch').
Proof.
  intros Hrun. split.
  - intros b ->. simpl in Hrun. inversion Hrun; subst. apply Flag_spec.
  - intros Hf Hf'. exfalso.
    pose proof (run_ops_keeps_flagged _ _ _ Hrun Hf) as H. congruence.
Qed.

Lemma flag_sticky_until_recover_dials_witness :
  run_ops [OpFlag true] conn0 = Ret (Connection.Flag true conn0)
  /\ Connection.flagged (Connection.Flag true conn0) = Connection.flagged conn0 || true
  /\ Connection.set_flagged (Connection.flagged conn0) (Connection.Flag true conn0) = conn0.
Proof.
  split; [reflexivity|].
  destruct (flag_sticky_until_recover_dials [OpFlag true] conn0 (Connection.Flag true conn0)
              eq_refl) as [H _].
  destruct (H true eq_refl) as (H1 & H2 & _).
  split; assumption.
Defined.

(** C9.  The round trip cannot be made: on a flagged Connection [Recover]
    never returns success.  It dials, because a flagged Connection reports
    closed; when the dial succeeds the flag is cleared and the deferred
    drain of the timer, which was stopped when it was created and never
    reset, receives from an empty channel, so that the call blocks instead
    of returning nil; when the dial fails and the sleep is not cancelled,
    the drain that follows the sleep blocks the same way. *)
Theorem flagged_recover_never_returns_success :
  (forall sch script ch ch',
     Connection.Recover sch script (Connection.Flag true ch) <> Ret (None, ch'))
  /\ (forall sch h c rest ch,
        Connection.Recover sch ({| dial := DialOk h; cancelled := c |} :: rest)
          (Connection.Flag true ch) = Blocked)
  /\ Connection.Recover sched0 script0 (Connection.Flag true conn0) = Blocked.
Proof.
  split; [|split].
  - intros sch script ch ch'. apply recover_flagged_no_success.
    destruct (Flag_spec true ch) as (H & _). rewrite H. apply orb_true_r.
  - intros sch h c rest ch.
    assert (Hf : Connection.flagged (Connection.Flag true ch) = true).
    { destruct (Flag_spec true ch) as (H & _). rewrite H. apply orb_true_r. }
    unfold Connection.Recover. rewrite (recover_flagged _ _ _ Hf).
    destruct (error_frame (err_pick sch) (Connection.Flag true ch)) as (He & _).
    simpl. unfold Connection.connect.
    rewrite isClosed_flagged by congruence. reflexivity.
  - reflexivity.
Qed.

(** * Properties of the ConnectionPool *)

Lemma select_ready (pick : nat) (ready : list bool) (i : nat) :
  select pick ready = Some i -> nth i ready false = true.
Proof.
  unfold select. destruct (nth pick ready false) eqn:Hp.
  - intros H. inversion H. now subst.
  - clear Hp. change i with (0 + i)%nat at 2.
    assert (G : forall k, first_ready k ready = Some i ->
                          exists j, i = (k + j)%nat /\ nth j ready false = true).
    { induction ready as [|[|] rest IH]; intros k; simpl.
      - discriminate.
      - intros H. inversion H. exists 0%nat. split; [lia|reflexivity].
      - intros H. destruct (IH _ H) as (j & -> & Hj).
        exists (S j). split; [lia|exact Hj]. }
    intros H. destruct (G _ H) as (j & -> & Hj). exact Hj.
Qed.

Lemma recv_some_ready {A : Type} (ch : chan A) (x : A * chan A) :
  recv ch = Some x -> recv_ready ch = true.
Proof. unfold recv, recv_ready. destruct (buf ch); [discriminate|reflexivity]. Qed.

Lemma select_pick_ready (pick : nat) (ready : list bool) :
  nth pick ready false = true -> select pick ready = Some pick.
Proof. unfold select. now intros ->. Qed.

(** C1.  Whatever [GetConnection] returns, it returns either a Connection
    and no error, or an error and no Connection.  A Connection it hands out
    is unflagged and is the one at the head of the queue: as it was when it
    was not flagged, and otherwise as [Recover] left it after returning
    success.  When the head of the queue is flagged and [Recover] does not
    succeed, the caller gets the error of the recovery, wrapped, and no
    Connection. *)
Theorem get_connection_never_hands_out_flagged (ctx_ : context) (pick : nat)
    (sch : Sched) (script : list Attempt) (cp cp' : ConnectionPool.t)
    (res : option Connection.t * option goerror) :
  ConnectionPool.GetConnection ctx_ pick sch script cp = Ret (cp', res) ->
  match res with
  | (Some conn, err) =>
      err = None
      /\ Connection.flagged conn = false
      /\ exists c0,
           recv (ConnectionPool.connections cp) = Some (c0, ConnectionPool.connections cp')
           /\ if Connection.flagged c0
              then Connection.Recover sch script c0 = Ret (None, conn)
              else conn = c0
  | (None, err) =>
      err <> None
      /\ forall c0 q,
           recv (ConnectionPool.connections cp) = Some (c0, q) ->
           Connection.flagged c0 = true -> pick = 0%nat ->
           exists e c',
             Connection.Recover sch script c0 = Ret (Some e, c')
             /\ err = Some (Errorf_w "failed to get connection" e)
  end.
Proof.
  unfold ConnectionPool.GetConnection.
  destruct (select pick _) as [i|] eqn:Hsel; [|discriminate].
  pose proof (select_ready _ _ _ Hsel) as Hi.
  destruct i as [|[|i]].
  - (* the receive *)
    destruct (recv (ConnectionPool.connections cp)) as [[c0 q]|] eqn:Hrecv.
    + unfold Connection.IsFlagged.
      destruct (Connection.flagged c0) eqn:Hf.
      * destruct (Connection.Recover sch script c0) as [[[e|] c1]| | |] eqn:Hr;
          try discriminate; intros H; inversion H; subst; clear H.
        -- split; [discriminate|]. intros c0' q' Hq _ _. inversion Hq; subst. eauto.
        -- split; [reflexivity|]. split; [exact (recover_ok_unflagged _ _ _ _ Hr)|].
           exists c0. simpl. rewrite Hf. auto.
      * intros H; inversion H; subst; clear H.
        split; [reflexivity|]. split; [exact Hf|]. exists c0. simpl. now rewrite Hf.
    + intros H; inversion H; subst; clear H.
      split; [discriminate|]. intros c0 q Hq. discriminate.
  - (* the caller's context *)
    simpl in Hi. intros H; inversion H; subst; clear H.
    split.
    + destruct ctx_ as [[|]|]; simpl in *; discriminate.
    + intros c0 q Hq _ ->. apply recv_some_ready in Hq.
      unfold select in Hsel. simpl in Hsel. rewrite Hq in Hsel. discriminate.
  - (* the shutdown of the pool *)
    intros H; inversion H; subst; clear H.
    split; [discriminate|].
    intros c0 q Hq _ ->. apply recv_some_ready in Hq.
    unfold select in Hsel. simpl in Hsel. rewrite Hq in Hsel. discriminate.
Qed.

Lemma get_connection_never_hands_out_flagged_witness :
  (ConnectionPool.GetConnection None 0 sched0 [] pool_idle
     = Ret (ConnectionPool.set_connections (mkChan [conn_b] 2 false) pool_idle,
            (Some conn0, None))
   /\ Connection.flagged conn0 = false)
  /\ (ConnectionPool.GetConnection None 0 sched0
        [ {| dial := DialErr (Opaque "connection refused"); cancelled := true |} ] pool0
      = Ret (ConnectionPool.set_connections (mkChan [conn0] 2 false) pool0,
             (None,
              Some (Errorf_w "failed to get connection"
                      (Errorf_w "connection recovery failed" ErrPoolClosed))))
      /\ Some (Errorf_w "failed to get connection"
                 (Errorf_w "connection recovery failed" ErrPoolClosed)) <> None).
Proof.
  split; (split; [reflexivity|]).
  - apply (get_connection_never_hands_out_flagged None 0 sched0 [] pool_idle
             (ConnectionPool.set_connections (mkChan [conn_b] 2 false) pool_idle)
             (Some conn0, None)).
    reflexivity.
  - apply (get_connection_never_hands_out_flagged None 0 sched0
             [ {| dial := DialErr (Opaque "connection refused"); cancelled := true |} ]
             pool0 (ConnectionPool.set_connections (mkChan [conn0] 2 false) pool0)
             (None,
              Some (Errorf_w "failed to get connection"
                      (Errorf_w "connection recovery failed" ErrPoolClosed)))).
    reflexivity.
Defined.

(** A failed first dial leaves [NewConnection] with nothing but the error. *)
Lemma NewConnection_dial_error (url_Parse : string -> URL + goerror)
    (connectUrl name_ : string) (id_ : Z) (options : list Connection.ConnectionOption)
    (e : goerror) :
  exists err,
    Connection.NewConnection url_Parse connectUrl name_ id_ options (DialErr e)
      = (None, Some err).
Proof.
  unfold Connection.NewConnection.
  destruct (url_Parse connectUrl); simpl; eauto.
Qed.

(** C3.  When the first dial of a transient connection fails,
    [deriveConnection] returns a nil Connection with the error, and
    [GetTransientConnection] calls [Recover] on that nil pointer: the call
    panics instead of returning a Connection or a cancellation error. *)
Theorem get_transient_connection_dial_failure_panics
    (url_Parse : string -> URL + goerror) (ctx_ : context) (e : goerror)
    (sch : Sched) (script : list Attempt) (cp : ConnectionPool.t) :
  ConnectionPool.GetTransientConnection url_Parse ctx_ (DialErr e) sch script cp
    = Panic Connection.nil_dereference.
Proof.
  unfold ConnectionPool.GetTransientConnection, ConnectionPool.nextTransientID,
    ConnectionPool.deriveConnection.
  match goal with
  | |- context [Connection.NewConnection ?p ?u ?n ?i ?o (DialErr e)] =>
      destruct (NewConnection_dial_error p u n i o e) as [err ->]
  end.
  reflexivity.
Qed.

(** C4.  A session derived by the pool, cached or transient, gets the
    pool's [size] as its buffer size; the [bufferSize] the pool was
    configured with is not used.  In a pool of size 3 with the default
    buffer size 1, cached and transient sessions have buffer size 3. *)
Theorem session_buffer_size_is_pool_size :
  (forall sp c id cached,
     exists s,
       SessionPool.deriveSession sp (Some c) id cached None = Ret (Some s, None)
       /\ Session.bufferSize s = SessionPool.size sp
       /\ Session.cached s = cached)
  /\ (exists s,
        SessionPool.deriveSession spool0 (Some conn0) 0 true None = Ret (Some s, None)
        /\ Session.bufferSize s = 3%Z
        /\ SessionPool.bufferSize spool0 = 1%Z)
  /\ (exists cp sp s,
        SessionPool.GetTransientSession parse0 None (DialOk 7) sched0 [] None pool0 spool0
          = Ret (cp, sp, (Some s, None))
        /\ Session.bufferSize s = 3%Z
        /\ SessionPool.bufferSize sp = 1%Z).
Proof.
  split; [|split].
  - intros sp c id cached. eexists. split; [reflexivity|]. split; reflexivity.
  - eexists. split; [reflexivity|]. split; reflexivity.
  - do 3 eexists. split; [reflexivity|]. split; reflexivity.
Qed.

(** C7, as the code has it.  [NewConnectionPool] with 0 connections returns
    no pool and an error that is [errInvalidPoolSize]; [NewSessionPool] with
    size 0 returns nothing: it panics. *)
Theorem pool_size_zero_is_rejected :
  (forall url_Parse url_ParseRequestURI defaultAppName ctx_ connectUrl options w,
     ConnectionPool.NewConnectionPool url_Parse url_ParseRequestURI defaultAppName
       ctx_ connectUrl 0 options w
     = Ret (None, (None, Some (Errorf_wd errInvalidPoolSize 0))))
  /\ Is (Errorf_wd errInvalidPoolSize 0) errInvalidPoolSize = true
  /\ (forall pool options rounds,
        SessionPool.NewSessionPool pool 0 options rounds
        = Panic "max pool size is negative or 0").
Proof.
  split; [|split]; reflexivity.
Qed.

(** C7, as stated, fails for the session pool: with size 0 the constructor
    does not return an [errInvalidPoolSize] error. *)
Lemma new_session_pool_zero_returns_no_error :
  ~ exists pool' e,
      SessionPool.NewSessionPool pool0 0 [] [] = Ret (pool', (None, Some e))
      /\ Is e errInvalidPoolSize = true.
Proof.
  intros (pool' & e & H & _). discriminate H.
Qed.

Lemma wrap64_small (z : Z) : (- 2 ^ 63 <= z < 2 ^ 63)%Z -> wrap64 z = z.
Proof.
  intros H. unfold wrap64.
  rewrite Z.mod_small; lia.
Qed.

Lemma Close_closes (herr : option goerror) (conn : Connection.t) :
  Connection.done (snd (Connection.Close herr conn)) = true
  /\ Connection.IsClosed (snd (Connection.Close herr conn)) = true
  /\ match Connection.conn (snd (Connection.Close herr conn)) with
     | Some h => hclosed h = true
     | None => True
     end.
Proof.
  unfold Connection.Close, Connection.IsClosed, Connection.isClosed, Connection.isShutdown.
  simpl. destruct (Connection.conn conn) as [h|] eqn:Hc; simpl.
  - destruct (hclosed h) eqn:Hh; simpl; rewrite ?Hc, ?Hh, ?orb_true_r; auto.
  - rewrite ?Hc, ?orb_true_r; auto.
Qed.

(** C5.  [ReturnConnection] on a transient Connection decrements the
    live-transient counter and closes the Connection, and leaves the queue
    alone.  On a cached Connection it calls [Flag] with [flaggable err],
    which is false for a nil error and for a shutdown-class error and true
    for any other error, so that the flagged bit becomes
    [flagged || flaggable err] and nothing else changes; the Connection is
    then appended to the queue when there is room, and the call panics,
    without blocking, when the queue is full. *)
Theorem return_connection_routing (herr : option goerror) (conn : Connection.t)
    (err : option goerror) (cp : ConnectionPool.t) :
  (Connection.IsCached conn = false ->
     ConnectionPool.ReturnConnection herr conn err cp
       = Ret (ConnectionPool.decTransient cp, snd (Connection.Close herr conn))
     /\ ConnectionPool.connections (ConnectionPool.decTransient cp)
          = ConnectionPool.connections cp
     /\ ConnectionPool.concurrentTransient (ConnectionPool.decTransient cp)
          = wrap64 (ConnectionPool.concurrentTransient cp - 1)
     /\ ((- 2 ^ 63 < ConnectionPool.concurrentTransient cp < 2 ^ 63)%Z ->
         ConnectionPool.concurrentTransient (ConnectionPool.decTransient cp)
           = (ConnectionPool.concurrentTransient cp - 1)%Z)
     /\ Connection.done (snd (Connection.Close herr conn)) = true
     /\ Connection.IsClosed (snd (Connection.Close herr conn)) = true
     /\ match Connection.conn (snd (Connection.Close herr conn)) with
        | Some h => hclosed h = true
        | None => True
        end)
  /\ (Connection.IsCached conn = true ->
      let conn' := Connection.Flag (flaggable err) conn in
      let q := ConnectionPool.connections cp in
      Connection.flagged conn' = Connection.flagged conn || flaggable err
      /\ Connection.set_flagged (Connection.flagged conn) conn' = conn
      /\ (closed q = false -> (List.length (buf q) < cap q)%nat ->
          ConnectionPool.ReturnConnection herr conn err cp
            = Ret (ConnectionPool.set_connections (mkChan (buf q ++ [conn']) (cap q) false) cp,
                   conn'))
      /\ (closed q = false -> (cap q <= List.length (buf q))%nat ->
          ConnectionPool.ReturnConnection herr conn err cp
            = Panic "connection pool connections buffer full: not supposed to happen"))
  /\ flaggable None = false
  /\ (forall e, shutdown_class e = true -> flaggable (Some e) = false)
  /\ (forall e, shutdown_class e = false -> flaggable (Some e) = true).
Proof.
  split; [|split; [|split; [|split]]].
  - intros Hc. unfold ConnectionPool.ReturnConnection. rewrite Hc. simpl negb. cbv iota.
    destruct (Close_closes herr conn) as (Hd & Hcl & Hh).
    destruct (Connection.Close herr conn) as [e c'] eqn:Hclose. simpl in *.
    repeat split; auto.
    intros H. apply wrap64_small. lia.
  - intros Hc conn' q. subst conn' q.
    destruct (Flag_spec (flaggable err) conn) as (Hf & Hs & _).
    split; [exact Hf|]. split; [exact Hs|].
    unfold ConnectionPool.ReturnConnection. rewrite Hc. simpl negb. cbv iota.
    unfold select, send_ready, send. simpl.
    split.
    + intros -> Hlt. simpl. apply Nat.ltb_lt in Hlt. rewrite Hlt. reflexivity.
    + intros -> Hge. simpl. apply Nat.ltb_ge in Hge. rewrite Hge. reflexivity.
  - reflexivity.
  - intros e H. simpl. now rewrite H.
  - intros e H. simpl. now rewrite H.
Qed.

Lemma return_connection_routing_witness :
  ConnectionPool.ReturnConnection None conn1 (Some (Amqp {| Code := 504; Reason := "channel error" |}))
    (ConnectionPool.set_connections (mkChan [conn0] 2 false) pool0)
  = Ret (ConnectionPool.set_connections
           (mkChan [conn0; Connection.Flag true conn1] 2 false) pool0,
         Connection.Flag true conn1).
Proof.
  apply (return_connection_routing None conn1
           (Some (Amqp {| Code := 504; Reason := "channel error" |}))
           (ConnectionPool.set_connections (mkChan [conn0] 2 false) pool0)).
  - reflexivity.
  - reflexivity.
  - simpl. lia.
Defined.

(** * Properties of the SessionPool *)






(** C10.  [Close] of a session pool touches the queue and nothing else: it
    receives and closes the sessions the queue holds and leaves the queue
    empty, and it does not cancel the pool's context.  With a context that
    had not fired before, a [GetSession] that follows does not return
    [ErrClosed]: it blocks on the empty queue. *)
Theorem session_pool_close_keeps_token (sp : SessionPool.t) :
  closed (SessionPool.sessions sp) = false ->
  exists sp',
    SessionPool.Close sp = Ret (sp', map Session.Close (buf (SessionPool.sessions sp)))
    /\ SessionPool.ctx sp' = SessionPool.ctx sp
    /\ SessionPool.set_sessions (SessionPool.sessions sp) sp' = sp
    /\ buf (SessionPool.sessions sp') = []
    /\ (SessionPool.catchShutdown sp = false ->
        forall pick, SessionPool.GetSession pick sp' = Blocked)
    /\ (SessionPool.catchShutdown sp = true ->
        forall pick, SessionPool.GetSession pick sp' = Ret (sp', (None, Some ErrClosed))).
Proof.
  intros Hc. unfold SessionPool.Close. rewrite Hc.
  eexists. split; [reflexivity|].
  split; [reflexivity|].
  split; [destruct sp; reflexivity|].
  split; [reflexivity|].
  unfold SessionPool.GetSession, SessionPool.catchShutdown, select, recv_ready. simpl.
  split; intros ->; intros [|[|[|p]]]; simpl; try reflexivity; destruct p; reflexivity.
Qed.

Lemma session_pool_close_keeps_token_witness :
  exists sp',
    SessionPool.Close spool1
      = Ret (sp', map Session.Close (buf (SessionPool.sessions spool1)))
    /\ SessionPool.ctx sp' = None
    /\ SessionPool.GetSession 0 sp' = Blocked.
Proof.
  destruct (session_pool_close_keeps_token spool1 eq_refl)
    as (sp' & Hclose & Hctx & _ & _ & Hget & _).
  exists sp'. split; [exact Hclose|]. split; [exact Hctx|].
  apply Hget. reflexivity.
Defined.

(** ** Construction of a connection pool *)

Section InitFacts.

Variable url_Parse : string -> URL + goerror.

Lemma initCachedConns_loop_S (w : ConnectionPool.InitWorld) (n : nat) (id : Z)
    (cp : ConnectionPool.t) :
  ConnectionPool.initCachedConns_loop url_Parse w (S n) id cp =
  match ConnectionPool.deriveConnection url_Parse cp (ConnectionPool.ctx cp) id true
          (ConnectionPool.dials w id) with
  | (_, Some err) => Ret (cp, Some (Errorf_wv ErrPoolInitializationFailed err))
  | (None, None) => Panic Connection.nil_dereference
  | (Some conn, None) =>
      match select (if ConnectionPool.init_pick w id then 1 else 0)
                   [send_ready (ConnectionPool.connections cp);
                    Done (ConnectionPool.ctx cp)] with
      | Some O =>
          match send conn (ConnectionPool.connections cp) with
          | Ret q =>
              ConnectionPool.initCachedConns_loop url_Parse w n (wrap64 (id + 1))
                (ConnectionPool.set_connections q cp)
          | Panic m => Panic m
          | Blocked => Blocked
          | More => More
          end
      | Some _ =>
          Ret (cp, match ctx_Err (ConnectionPool.ctx cp) with
                   | Some e => Some (Errorf_wv ErrPoolInitializationFailed e)
                   | None => None
                   end)
      | None =>
          Ret (cp, Some (Errorf_ws ErrPoolInitializationFailed "pool channel buffer full"))
      end
  end.
Proof. reflexivity. Qed.

(** With a live context, a dial that succeeds gives an open connection. *)
Lemma deriveConnection_ok (cp : ConnectionPool.t) (u : URL) (id : Z) (cached : bool)
    (h : nat) :
  url_Parse (ConnectionPool.url cp) = inl u ->
  exists c,
    ConnectionPool.deriveConnection url_Parse cp None id cached (DialOk h) = (Some c, None)
    /\ Connection.IsClosed c = false
    /\ Connection.done c = false
    /\ Connection.conn c = Some {| hid := h; hclosed := false |}.
Proof.
  intros Hu. unfold ConnectionPool.deriveConnection, Connection.NewConnection.
  rewrite Hu. simpl. eexists. split; [reflexivity|]. repeat split.
Qed.

Lemma deriveConnection_err (cp : ConnectionPool.t) (ctx_ : context) (u : URL) (id : Z)
    (cached : bool) (e : goerror) :
  url_Parse (ConnectionPool.url cp) = inl u ->
  ConnectionPool.deriveConnection url_Parse cp ctx_ id cached (DialErr e)
    = (None, Some (Errorf_wv ErrConnectionFailed e)).
Proof.
  intros Hu. unfold ConnectionPool.deriveConnection, Connection.NewConnection.
  rewrite Hu. reflexivity.
Qed.

(** The loop of [initCachedConns] when dial [k] is the first to fail: it
    stops there with the error, having queued the [k] connections before
    it, and closes none of them. *)
Lemma initCachedConns_loop_fails (w : ConnectionPool.InitWorld) (u : URL) (e : goerror)
    (k : nat) :
  forall (n : nat) (id : Z) (cp : ConnectionPool.t),
    url_Parse (ConnectionPool.url cp) = inl u ->
    ConnectionPool.ctx cp = None ->
    closed (ConnectionPool.connections cp) = false ->
    (List.length (buf (ConnectionPool.connections cp)) + n
       <= cap (ConnectionPool.connections cp))%nat ->
    (k < n)%nat ->
    (0 <= id)%Z -> (id + Z.of_nat n < 2 ^ 63)%Z ->
    (forall j, (j < k)%nat -> exists h, ConnectionPool.dials w (id + Z.of_nat j) = DialOk h) ->
    ConnectionPool.dials w (id + Z.of_nat k) = DialErr e ->
    Forall still_open (buf (ConnectionPool.connections cp)) ->
    exists cp',
      ConnectionPool.initCachedConns_loop url_Parse w n id cp
        = Ret (cp', Some (Errorf_wv ErrPoolInitializationFailed
                            (Errorf_wv ErrConnectionFailed e)))
      /\ List.length (buf (ConnectionPool.connections cp'))
           = (List.length (buf (ConnectionPool.connections cp)) + k)%nat
      /\ Forall still_open (buf (ConnectionPool.connections cp'))
      /\ ConnectionPool.ctx cp' = None.
Proof.
  induction k as [|k IH]; intros n id cp Hu Hctx Hcl Hcap Hk Hid Hmax Hok Herr Hopen.
  - destruct n as [|n]; [lia|].
    rewrite initCachedConns_loop_S.
    replace (id + Z.of_nat 0)%Z with id in Herr by lia.
    rewrite Herr, (deriveConnection_err _ _ u) by exact Hu.
    exists cp. repeat split; auto.
  - destruct n as [|n]; [lia|].
    rewrite initCachedConns_loop_S.
    destruct (Hok 0%nat) as [h Hh]; [lia|].
    replace (id + Z.of_nat 0)%Z with id in Hh by lia.
    rewrite Hh, Hctx.
    destruct (deriveConnection_ok cp u id true h Hu) as (c & -> & Hc1 & Hc2 & _).
    assert (Hroom : send_ready (ConnectionPool.connections cp) = true).
    { unfold send_ready. rewrite Hcl. simpl. apply Nat.ltb_lt. lia. }
    assert (Hsel : select (if ConnectionPool.init_pick w id then 1 else 0)%nat
                     [send_ready (ConnectionPool.connections cp); Done None] = Some 0%nat).
    { rewrite Hroom. destruct (ConnectionPool.init_pick w id); reflexivity. }
    rewrite Hsel. unfold send. rewrite Hcl.
    rewrite wrap64_small by lia.
    destruct (IH n (id + 1)%Z
                (ConnectionPool.set_connections
                   (mkChan (buf (ConnectionPool.connections cp) ++ [c])
                           (cap (ConnectionPool.connections cp)) false) cp))
      as (cp' & Hrun & Hlen & Hall & Hctx'); simpl; auto; try lia.
    + rewrite length_app. simpl. lia.
    + intros j Hj. destruct (Hok (S j)) as [h' Hh']; [lia|].
      exists h'. rewrite <- Hh'. f_equal. lia.
    + rewrite <- Herr. f_equal. lia.
    + apply Forall_app. split; [exact Hopen|]. constructor; [split; assumption|constructor].
    + exists cp'. split; [exact Hrun|]. split.
      * rewrite Hlen. simpl. rewrite length_app. simpl. lia.
      * split; assumption.
Qed.

End InitFacts.

(** C2, as the code has it.  When the dial of connection [k] is the first
    to fail during the construction of a pool whose context is live, the
    constructor returns no pool and an error that is
    [ErrPoolInitializationFailed] and carries the cause in its text.  The
    [k] connections created before are left in the queue of the abandoned
    pool, open: the constructor closes none of them and does not cancel the
    pool's context. *)
Theorem init_failure_returns_error_closes_nothing
    (url_Parse url_ParseRequestURI : string -> URL + goerror) (connectUrl : string)
    (opt : ConnectionPool.connectionPoolOption) (w : ConnectionPool.InitWorld)
    (u u2 : URL) (e : goerror) (k : nat) :
  url_ParseRequestURI connectUrl = inl u ->
  url_Parse (URL_String (match ConnectionPool.TLSConfig_ opt with
                         | Some _ => set_Scheme "amqps" u
                         | None => u
                         end)) = inl u2 ->
  ConnectionPool.Ctx opt = None ->
  (Z.of_nat k < ConnectionPool.Size opt < 2 ^ 63)%Z ->
  (forall j, (j < k)%nat -> exists h, ConnectionPool.dials w (Z.of_nat j) = DialOk h) ->
  ConnectionPool.dials w (Z.of_nat k) = DialErr e ->
  exists cp,
    ConnectionPool.newConnectionPoolFromOption url_Parse url_ParseRequestURI connectUrl opt w
      = Ret (Some cp,
             (None, Some (Errorf_wv ErrPoolInitializationFailed
                            (Errorf_wv ErrConnectionFailed e))))
    /\ Is (Errorf_wv ErrPoolInitializationFailed (Errorf_wv ErrConnectionFailed e))
          ErrPoolInitializationFailed = true
    /\ List.length (buf (ConnectionPool.connections cp)) = k
    /\ Forall still_open (buf (ConnectionPool.connections cp))
    /\ ConnectionPool.ctx cp = None.
Proof.
  intros Hu Hu2 Hctx Hk Hok Herr.
  unfold ConnectionPool.newConnectionPoolFromOption. rewrite Hu.
  replace (ConnectionPool.Size opt <? 0)%Z with false by (symmetry; apply Z.ltb_ge; lia).
  unfold ConnectionPool.initCachedConns. cbn [ConnectionPool.size].
  match goal with
  | |- context [ConnectionPool.initCachedConns_loop _ _ ?n ?id ?cp0] =>
      pose proof (initCachedConns_loop_fails url_Parse w u2 e k n id cp0 Hu2 Hctx eq_refl)
        as G
  end.
  destruct G as (cp & Hrun & Hlen & Hall & Hc).
  - simpl. lia.
  - lia.
  - lia.
  - rewrite Z2Nat.id; lia.
  - exact Hok.
  - exact Herr.
  - constructor.
  - exists cp. rewrite Hrun. repeat split; auto.
Qed.

Lemma init_failure_returns_error_closes_nothing_witness :
  exists cp,
    ConnectionPool.newConnectionPoolFromOption parse0 parse0 "broker:5672/" option2 world2
      = Ret (Some cp,
             (None, Some (Errorf_wv ErrPoolInitializationFailed
                            (Errorf_wv ErrConnectionFailed (Opaque "connection refused")))))
    /\ Is (Errorf_wv ErrPoolInitializationFailed
             (Errorf_wv ErrConnectionFailed (Opaque "connection refused")))
          ErrPoolInitializationFailed = true
    /\ List.length (buf (ConnectionPool.connections cp)) = 1%nat
    /\ Forall still_open (buf (ConnectionPool.connections cp))
    /\ ConnectionPool.ctx cp = None.
Proof.
  apply (init_failure_returns_error_closes_nothing parse0 parse0 "broker:5672/" option2 world2
           {| Scheme := "amqp"; Rest := "broker:5672/" |}
           {| Scheme := "amqp"; Rest := "amqp://broker:5672/" |}
           (Opaque "connection refused") 1).
  - reflexivity.
  - reflexivity.
  - reflexivity.
  - simpl. lia.
  - intros j Hj. exists 1%nat. destruct j as [|j]; [reflexivity|lia].
  - reflexivity.
Defined.

(** C2, as stated, fails: in a pool of two connections whose second dial is
    refused, the constructor returns the error and the first connection is
    still open. *)
Lemma init_failure_leaves_first_connection_open :
  ~ (forall cp err,
       ConnectionPool.newConnectionPoolFromOption parse0 parse0 "broker:5672/" option2 world2
         = Ret (Some cp, (None, Some err)) ->
       Forall (fun c => Connection.IsClosed c = true) (buf (ConnectionPool.connections cp))).
Proof.
  intros H.
  assert (E : exists cp err,
             ConnectionPool.newConnectionPoolFromOption parse0 parse0 "broker:5672/"
               option2 world2 = Ret (Some cp, (None, Some err))
             /\ exists c, In c (buf (ConnectionPool.connections cp))
                          /\ Connection.IsClosed c = false).
  { vm_compute. do 2 eexists. split; [reflexivity|].
    eexists. split; [left; reflexivity|reflexivity]. }
  destruct E as (cp & err & E & c & Hin & Hc).
  specialize (H _ _ E). rewrite Forall_forall in H. specialize (H _ Hin). congruence.
Qed.

(** * Further properties of a Connection *)

Section MoreConnectionFacts.

Import Connection.

Lemma error_loop_live (pick : nat -> bool) (es : list AmqpErr) :
  forall i err,
    error_loop pick i false false es err
    = (match err with
       | Some _ => err
       | None => match es with [] => None | e :: _ => Some (Amqp e) end
       end, []).
Proof.
  induction es as [|e rest IH]; intros i err; simpl.
  - now destruct err.
  - rewrite IH. now destruct err.
Qed.

Lemma error_loop_dead (pick : nat -> bool) (shutdown closed_ : bool) (es : list AmqpErr) :
  shutdown || closed_ = true ->
  forall i err,
    fst (error_loop pick i shutdown closed_ es err) = Some ErrConnectionClosed.
Proof.
  intros H. induction es as [|e rest IH]; intros i err; simpl.
  - now rewrite H.
  - destruct (shutdown && pick i); [reflexivity|apply IH].
Qed.

Lemma error_loop_closed_drains (pick : nat -> bool) (es : list AmqpErr) :
  forall i err, snd (error_loop pick i false true es err) = [].
Proof.
  induction es as [|e rest IH]; intros i err; simpl; [reflexivity|apply IH].
Qed.

Lemma set_errors_same (ch : Connection.t) : set_errors (errors ch) ch = ch.
Proof. now destruct ch. Qed.

Lemma set_errors_twice (a b : chan AmqpErr) (ch : Connection.t) :
  set_errors a (set_errors b ch) = set_errors a ch.
Proof. reflexivity. Qed.

End MoreConnectionFacts.

(** X1.  On a Connection whose token has not fired and whose notification
    channel is open, [Error] returns the first pending close error, or nil
    when none is pending, discards the others and touches nothing but the
    error channel; an [Error] that follows returns nil. *)
Theorem error_returns_first_and_drains (pick pick' : nat -> bool) (ch : Connection.t) :
  Connection.done ch = false ->
  closed (Connection.errors ch) = false ->
  fst (Connection.Error pick ch)
    = match buf (Connection.errors ch) with
      | [] => None
      | e :: _ => Some (Amqp e)
      end
  /\ buf (Connection.errors (snd (Connection.Error pick ch))) = []
  /\ Connection.set_errors (Connection.errors ch) (snd (Connection.Error pick ch)) = ch
  /\ fst (Connection.Error pick' (snd (Connection.Error pick ch))) = None.
Proof.
  intros Hd Hc. unfold Connection.Error, Connection.error.
  rewrite Hd, Hc, error_loop_live. cbn [fst snd].
  split; [reflexivity|]. split; [reflexivity|]. split.
  - destruct ch; reflexivity.
  - cbn. rewrite Hd. reflexivity.
Qed.

Lemma error_returns_first_and_drains_witness :
  fst (Connection.Error (fun _ => true) conn_pending) = Some (Amqp amqp_err1)
  /\ buf (Connection.errors (snd (Connection.Error (fun _ => true) conn_pending))) = []
  /\ Connection.set_errors (Connection.errors conn_pending)
       (snd (Connection.Error (fun _ => true) conn_pending)) = conn_pending
  /\ fst (Connection.Error (fun _ => false)
            (snd (Connection.Error (fun _ => true) conn_pending))) = None.
Proof.
  apply (error_returns_first_and_drains (fun _ => true) (fun _ => false) conn_pending);
    reflexivity.
Defined.

(** X2.  Once the token has fired or the broker client has closed the
    notification channel, [Error] returns [ErrConnectionClosed] whatever is
    pending; with a closed channel and a live token the pending errors are
    consumed on the way and none of them is returned. *)
Theorem error_reports_closed (pick : nat -> bool) (ch : Connection.t) :
  Connection.done ch = true \/ closed (Connection.errors ch) = true ->
  fst (Connection.Error pick ch) = Some ErrConnectionClosed
  /\ (Connection.done ch = false ->
      buf (Connection.errors (snd (Connection.Error pick ch))) = []).
Proof.
  intros H. unfold Connection.Error, Connection.error.
  pose proof (error_loop_dead pick (Connection.done ch) (closed (Connection.errors ch))
                (buf (Connection.errors ch))) as Hdead.
  pose proof (error_loop_closed_drains pick (buf (Connection.errors ch)) 0 None) as Hdrain.
  destruct (Connection.error_loop pick 0 (Connection.done ch) (closed (Connection.errors ch))
              (buf (Connection.errors ch)) None) as [r es] eqn:Hloop.
  simpl. split.
  - specialize (Hdead (ltac:(destruct H as [-> | ->]; [reflexivity|apply orb_true_r])) 0%nat None).
    rewrite Hloop in Hdead. exact Hdead.
  - intros Hd. destruct H as [H|H]; [congruence|].
    rewrite Hd, H in Hloop. rewrite Hloop in Hdrain. exact Hdrain.
Qed.

Lemma error_reports_closed_witness :
  fst (Connection.Error (fun _ => false)
         (Connection.set_errors (mkChan [amqp_err1] 10 true) conn0))
    = Some ErrConnectionClosed
  /\ (Connection.done (Connection.set_errors (mkChan [amqp_err1] 10 true) conn0) = false ->
      buf (Connection.errors
             (snd (Connection.Error (fun _ => false)
                     (Connection.set_errors (mkChan [amqp_err1] 10 true) conn0)))) = []).
Proof.
  apply (error_reports_closed (fun _ => false)
           (Connection.set_errors (mkChan [amqp_err1] 10 true) conn0)).
  right. reflexivity.
Defined.

(** X3.  [Connect] is idempotent on a Connection that is neither flagged
    nor shut down: once it has returned nil the Connection is open, and any
    further [Connect] returns nil without dialling and leaves the
    Connection as it is. *)
Theorem connect_is_idempotent (d d' : DialResult) (ch ch1 : Connection.t) :
  Connection.flagged ch = false ->
  Connection.done ch = false ->
  Connection.Connect d ch = (None, ch1) ->
  Connection.IsClosed ch1 = false
  /\ Connection.Connect d' ch1 = (None, ch1).
Proof.
  intros Hf Hd. unfold Connection.Connect, Connection.connect, Connection.IsClosed.
  destruct (Connection.isClosed ch) eqn:Hc; simpl.
  - destruct d as [h|e]; [|discriminate].
    intros H. inversion H. subst ch1. clear H.
    unfold Connection.isClosed, Connection.isShutdown. simpl.
    rewrite Hf, Hd. simpl. auto.
  - intros H. inversion H. subst ch1. rewrite Hc. simpl. auto.
Qed.

Lemma connect_is_idempotent_witness :
  Connection.IsClosed conn1 = false
  /\ Connection.Connect (DialErr (Opaque "connection refused")) conn1 = (None, conn1).
Proof.
  apply (connect_is_idempotent (DialOk 2) (DialErr (Opaque "connection refused"))
           (Connection.set_conn None conn0) conn1); reflexivity.
Defined.

(** X4.  [Connect] does not repair a flagged Connection: it dials and binds
    the new handle, but the flag stays set, the Connection still reports
    closed, and the next [Connect] dials again and replaces the handle. *)
Theorem connect_keeps_flagged_connection_closed (h h' : nat) (ch : Connection.t) :
  Connection.flagged ch = true ->
  exists ch1,
    Connection.Connect (DialOk h) ch = (None, ch1)
    /\ Connection.conn ch1 = Some {| hid := h; hclosed := false |}
    /\ Connection.flagged ch1 = true
    /\ Connection.IsClosed ch1 = true
    /\ Connection.conn (snd (Connection.Connect (DialOk h') ch1))
         = Some {| hid := h'; hclosed := false |}.
Proof.
  intros Hf. unfold Connection.Connect, Connection.connect, Connection.IsClosed.
  rewrite (isClosed_flagged _ Hf). simpl.
  eexists. split; [reflexivity|].
  unfold Connection.isClosed. simpl. rewrite Hf. simpl. auto.
Qed.

Lemma connect_keeps_flagged_connection_closed_witness :
  exists ch1,
    Connection.Connect (DialOk 5) (Connection.Flag true conn0) = (None, ch1)
    /\ Connection.conn ch1 = Some {| hid := 5; hclosed := false |}
    /\ Connection.flagged ch1 = true
    /\ Connection.IsClosed ch1 = true
    /\ Connection.conn (snd (Connection.Connect (DialOk 6) ch1))
         = Some {| hid := 6; hclosed := false |}.
Proof.
  apply (connect_keeps_flagged_connection_closed 5 6 (Connection.Flag true conn0)).
  reflexivity.
Defined.

(** X5.  [Close] is idempotent: after a first [Close] the Connection
    reports closed, and a second [Close] returns nil and changes nothing. *)
Theorem connection_close_is_idempotent (herr herr' : option goerror) (ch : Connection.t) :
  Connection.Close herr' (snd (Connection.Close herr ch))
    = (None, snd (Connection.Close herr ch))
  /\ Connection.IsClosed (snd (Connection.Close herr ch)) = true.
Proof.
  split; [|apply Close_closes].
  unfold Connection.Close. simpl.
  destruct (Connection.conn ch) as [h|] eqn:Hc; simpl.
  - destruct (hclosed h) eqn:Hh; simpl; rewrite ?Hc; simpl; rewrite ?Hh; reflexivity.
  - rewrite Hc. reflexivity.
Qed.

Section TokenFacts.

Import Connection.

Lemma pause_loop_done (pick : nat -> bool) (bs : list Blocking) :
  forall i timer ch ch' bs',
    pause_loop pick i bs timer ch = Ret (ch', bs') -> done ch = true -> done ch' = true.
Proof.
  induction bs as [|b rest IH]; intros i timer ch ch' bs'; simpl.
  - destruct (isClosed ch); intros H; apply return_draining_ret in H;
      inversion H; auto.
  - destruct (isClosed ch).
    + intros H; apply return_draining_ret in H; inversion H; auto.
    + destruct (Active b); simpl.
      * destruct (Timer_drain timer) as [t1|]; [|discriminate].
        destruct (pick i).
        -- intros H; apply return_draining_ret in H; inversion H; auto.
        -- apply IH.
      * intros H; apply return_draining_ret in H; inversion H; auto.
Qed.

Lemma connect_done (d : DialResult) (ch : Connection.t) :
  done (snd (connect d ch)) = done ch.
Proof.
  unfold connect. destruct (isClosed ch); simpl; [|reflexivity].
  destruct d; reflexivity.
Qed.

Lemma recover_loop_done (script : list Attempt) :
  forall timer ch r ch',
    done ch = true -> recover_loop script timer ch = Ret (r, ch') -> done ch' = true.
Proof.
  induction script as [|a rest IH]; intros timer ch r ch' Hd; simpl; [discriminate|].
  pose proof (connect_done (dial a) ch) as Hc.
  destruct (connect (dial a) ch) as [[e|] ch1]; simpl in Hc.
  - destruct (done ch1 || cancelled a).
    + intros H. apply return_draining_ret in H. inversion H. reflexivity.
    + discriminate.
  - intros H. apply return_draining_ret in H. inversion H. simpl. congruence.
Qed.

Lemma run_keeps_done (o : op) (ch ch' : Connection.t) :
  run o ch = Ret ch' -> done ch = true -> done ch' = true.
Proof.
  intros Hrun Hd. destruct o; simpl in Hrun.
  - inversion Hrun. unfold Flag. destruct (negb (flagged ch) && flagged0); simpl; exact Hd.
  - inversion Hrun. unfold Connect. now rewrite connect_done.
  - unfold PauseOnFlowControl, pauseOnFlowControl in Hrun.
    destruct (pause_loop pick 0 (buf (blockers ch)) NewTimer ch) as [[c1 bs]| | |] eqn:Hp;
      try discriminate.
    inversion Hrun. simpl. exact (pause_loop_done _ _ _ _ _ _ _ Hp Hd).
  - inversion Hrun. congruence.
  - inversion Hrun. apply Close_closes.
  - inversion Hrun. unfold Error. destruct (error_frame pick ch) as (_ & _ & H & _). congruence.
  - unfold Recover, recover in Hrun.
    destruct (error_frame (err_pick sch) ch) as (_ & _ & He & _).
    destruct (error (err_pick sch) ch) as [e c1]. simpl in He.
    assert (Hd1 : done c1 = true) by congruence.
    destruct (match e with None => true | Some _ => false end && negb (isClosed c1)).
    + unfold pauseOnFlowControl in Hrun.
      destruct (pause_loop (pause_pick sch) 0 (buf (blockers c1)) NewTimer c1)
        as [[c2 bs]| | |] eqn:Hp; try discriminate.
      inversion Hrun. simpl. exact (pause_loop_done _ _ _ _ _ _ _ Hp Hd1).
    + change (Timer_drain NewTimer) with (Some Timer_idle) in Hrun. cbv iota in Hrun.
      destruct (recover_loop script Timer_idle c1) as [[r c2]| | |] eqn:Hr; try discriminate.
      inversion Hrun. subst. exact (recover_loop_done _ _ _ _ _ Hd1 Hr).
Qed.

End TokenFacts.

(** X6.  Shutdown is final: once the token of a Connection has fired, no
    sequence of its operations, a [Recover] that dials successfully
    included, clears it, and the Connection reports closed ever after. *)
Theorem shutdown_is_final (ops : list op) (ch ch' : Connection.t) :
  Connection.done ch = true ->
  run_ops ops ch = Ret ch' ->
  Connection.done ch' = true /\ Connection.IsClosed ch' = true.
Proof.
  intros Hd Hrun.
  assert (H : Connection.done ch' = true).
  { revert ch Hd Hrun. induction ops as [|o rest IH]; intros ch Hd Hrun; simpl in Hrun.
    - inversion Hrun. congruence.
    - destruct (run o ch) as [c1| | |] eqn:Ho; try discriminate.
      apply (IH c1); [|exact Hrun]. eapply run_keeps_done; eauto. }
  split; [exact H|].
  unfold Connection.IsClosed, Connection.isClosed, Connection.isShutdown.
  rewrite H. apply orb_true_r.
Qed.

Lemma shutdown_is_final_witness :
  run_ops [OpClose None; OpRecover sched0 script0; OpFlag true; OpConnect (DialOk 9)] conn0
    = Ret (Connection.mk "amqp://broker:5672/" "app-cached-connection-0" 0 true true None
             (Some {| hid := 9; hclosed := false |}) (15 * Connection.second)
             (30 * Connection.second) (make 10) (make 10) true)
  /\ Connection.done
       (Connection.mk "amqp://broker:5672/" "app-cached-connection-0" 0 true true None
          (Some {| hid := 9; hclosed := false |}) (15 * Connection.second)
          (30 * Connection.second) (make 10) (make 10) true) = true
  /\ Connection.IsClosed
       (Connection.mk "amqp://broker:5672/" "app-cached-connection-0" 0 true true None
          (Some {| hid := 9; hclosed := false |}) (15 * Connection.second)
          (30 * Connection.second) (make 10) (make 10) true) = true.
Proof.
  split; [reflexivity|].
  apply (shutdown_is_final [OpRecover sched0 script0; OpFlag true; OpConnect (DialOk 9)]
           (snd (Connection.Close None conn0))); reflexivity.
Defined.

(** X7.  On an open Connection [PauseOnFlowControl] returns only if no
    flow-control sleep runs to its end.  With no notification pending it
    returns at once and changes nothing; with an inactive notification first
    it consumes that one and returns; with an active notification first it
    sleeps, and returns, with the token fired, only if the token fires
    during that sleep.  When the sleep elapses instead, the next drain of
    the timer receives from its empty channel and the call blocks, whatever
    notifications follow. *)
Theorem pause_returns_only_without_elapsed_sleep (pick : nat -> bool) (ch : Connection.t) :
  Connection.IsClosed ch = false ->
  let q := Connection.blockers ch in
  (buf q = [] -> Connection.PauseOnFlowControl pick ch = Ret ch)
  /\ (forall b rest, buf q = b :: rest -> Active b = false ->
      Connection.PauseOnFlowControl pick ch
        = Ret (Connection.set_blockers (mkChan rest (cap q) (closed q)) ch))
  /\ (forall b rest, buf q = b :: rest -> Active b = true -> pick 0%nat = true ->
      Connection.PauseOnFlowControl pick ch
        = Ret (Connection.set_blockers (mkChan rest (cap q) (closed q))
                 (Connection.cancel ch)))
  /\ (forall b rest, buf q = b :: rest -> Active b = true -> pick 0%nat = false ->
      Connection.PauseOnFlowControl pick ch = Blocked).
Proof.
  intros Hc q. subst q. unfold Connection.IsClosed in Hc.
  unfold Connection.PauseOnFlowControl, Connection.pauseOnFlowControl.
  split; [|split; [|split]].
  - intros Hb. rewrite Hb. simpl. rewrite Hc. simpl.
    destruct ch as [u n i c f tl cn hb ct es [bb bc bcl] dn]. simpl in *. now subst.
  - intros b rest Hb Ha. rewrite Hb. simpl. rewrite Hc, Ha. reflexivity.
  - intros b rest Hb Ha Hp. rewrite Hb. simpl. rewrite Hc, Ha, Hp. reflexivity.
  - intros b rest Hb Ha Hp. rewrite Hb. simpl. rewrite Hc, Ha, Hp. simpl.
    destruct rest as [|b' rest']; simpl; rewrite Hc; [reflexivity|].
    destruct (Active b'); reflexivity.
Qed.

Lemma pause_returns_only_without_elapsed_sleep_witness :
  Connection.PauseOnFlowControl (fun _ => false) conn_blocked = Blocked
  /\ Connection.PauseOnFlowControl (fun _ => true) conn_blocked
     = Ret (Connection.set_blockers
              (mkChan [ {| Active := true; BlockReason := "low on disk" |};
                        {| Active := false; BlockReason := "" |};
                        {| Active := true; BlockReason := "low on memory" |} ] 10 false)
              (Connection.cancel conn_blocked)).
Proof.
  destruct (pause_returns_only_without_elapsed_sleep (fun _ => false) conn_blocked eq_refl)
    as (_ & _ & _ & H4).
  destruct (pause_returns_only_without_elapsed_sleep (fun _ => true) conn_blocked eq_refl)
    as (_ & _ & H3 & _).
  split.
  - apply (H4 _ _ eq_refl); reflexivity.
  - apply (H3 _ _ eq_refl); reflexivity.
Defined.



(** X9.  [Recover] fails only by shutdown: the error it returns is the one
    wrapping [ErrPoolClosed], a cancellation-class error that would not
    flag a Connection; the token has then fired, and the flag and the
    handle are as they were before the call. *)
Theorem recover_fails_only_by_shutdown (sch : Sched) (script : list Attempt)
    (ch ch' : Connection.t) (e : goerror) :
  Connection.Recover sch script ch = Ret (Some e, ch') ->
  e = Errorf_w "connection recovery failed" ErrPoolClosed
  /\ Is e ErrPoolClosed = true
  /\ shutdown_class e = true
  /\ flaggable (Some e) = false
  /\ Connection.done ch' = true
  /\ Connection.flagged ch' = Connection.flagged ch
  /\ Connection.conn ch' = Connection.conn ch.
Proof.
  intros H.
  pose proof (recover_error _ _ _ _ _ H) as He.
  pose proof (recover_error_keeps_flagged _ _ _ _ _ H) as Hf.
  subst e.
  assert (Hs : ch' = Connection.cancel (snd (Connection.error (err_pick sch) ch))).
  { unfold Connection.Recover, Connection.recover in H.
    destruct (Connection.error (err_pick sch) ch) as [e1 c1].
    destruct (match e1 with None => true | Some _ => false end
              && negb (Connection.isClosed c1)).
    - destruct (Connection.pauseOnFlowControl (pause_pick sch) c1); discriminate.
    - simpl in H. apply recover_loop_error in H. now destruct H. }
  repeat split; auto.
  - subst ch'. reflexivity.
  - subst ch'. destruct (error_frame (err_pick sch) ch) as (_ & Hc & _). exact Hc.
Qed.

Lemma recover_fails_only_by_shutdown_witness :
  Errorf_w "connection recovery failed" ErrPoolClosed
    = Errorf_w "connection recovery failed" ErrPoolClosed
  /\ Is (Errorf_w "connection recovery failed" ErrPoolClosed) ErrPoolClosed = true
  /\ shutdown_class (Errorf_w "connection recovery failed" ErrPoolClosed) = true
  /\ flaggable (Some (Errorf_w "connection recovery failed" ErrPoolClosed)) = false
  /\ Connection.done (Connection.cancel (Connection.Flag true conn0)) = true
  /\ Connection.flagged (Connection.cancel (Connection.Flag true conn0))
       = Connection.flagged (Connection.Flag true conn0)
  /\ Connection.conn (Connection.cancel (Connection.Flag true conn0))
       = Connection.conn (Connection.Flag true conn0).
Proof.
  apply (recover_fails_only_by_shutdown sched0
           [ {| dial := DialErr (Opaque "connection refused"); cancelled := true |} ]
           (Connection.Flag true conn0)).
  reflexivity.
Defined.

(** X10.  On a flagged Connection [Recover] is decided in its first
    round, and returns from it only upon shutdown.  If the dial fails and
    the token fires during the backoff sleep, it returns the error wrapping
    [ErrPoolClosed], the Connection still flagged and on its old handle.
    If the dial succeeds, or fails with a sleep that runs to its end, the
    drain of the timer that follows receives from an empty channel and the
    call blocks; later rounds are never reached. *)
Theorem recover_is_decided_in_first_round (sch : Sched) (a : Attempt) (rest : list Attempt)
    (ch : Connection.t) :
  Connection.flagged ch = true ->
  Connection.done ch = false ->
  (forall h, dial a = DialOk h ->
     Connection.Recover sch (a :: rest) ch = Blocked)
  /\ (forall e, dial a = DialErr e -> cancelled a = false ->
      Connection.Recover sch (a :: rest) ch = Blocked)
  /\ (forall e, dial a = DialErr e -> cancelled a = true ->
      exists ch',
        Connection.Recover sch (a :: rest) ch
          = Ret (Some (Errorf_w "connection recovery failed" ErrPoolClosed), ch')
        /\ Connection.conn ch' = Connection.conn ch
        /\ Connection.flagged ch' = true
        /\ Connection.done ch' = true).
Proof.
  intros Hf Hd. unfold Connection.Recover.
  rewrite (recover_flagged _ _ _ Hf).
  destruct (error_frame (err_pick sch) ch) as (He & Hc & Hdn & _).
  set (c1 := snd (Connection.error (err_pick sch) ch)) in *.
  assert (Hf1 : Connection.flagged c1 = true) by congruence.
  assert (Hd1 : Connection.done c1 = false) by congruence.
  pose proof (isClosed_flagged _ Hf1) as Hcl.
  clearbody c1.
  split; [|split].
  - intros h Ha. simpl. unfold Connection.connect. rewrite Hcl, Ha. reflexivity.
  - intros e Ha Hcan. simpl. unfold Connection.connect.
    rewrite Hcl, Ha. simpl. rewrite Hd1, Hcan. reflexivity.
  - intros e Ha Hcan. simpl. unfold Connection.connect.
    rewrite Hcl, Ha. simpl. rewrite Hd1, Hcan. simpl.
    eexists. split; [reflexivity|]. simpl. repeat split; congruence.
Qed.

Lemma recover_is_decided_in_first_round_witness :
  (forall h, dial {| dial := DialOk 4; cancelled := false |} = DialOk h ->
     Connection.Recover sched0
       ({| dial := DialOk 4; cancelled := false |} :: script0) (Connection.Flag true conn0)
     = Blocked)
  /\ Connection.Recover sched0
       ({| dial := DialOk 4; cancelled := false |} :: script0) (Connection.Flag true conn0)
     = Blocked.
Proof.
  destruct (recover_is_decided_in_first_round sched0
              {| dial := DialOk 4; cancelled := false |} script0
              (Connection.Flag true conn0) eq_refl eq_refl) as (H & _).
  split; [exact H|]. apply (H 4%nat). reflexivity.
Defined.

(** X11.  [NewConnection] returns a Connection exactly when it returns no
    error.  The Connection it returns is not flagged, carries the
    name and id it was given, and holds the handle of the dial with fresh,
    empty notification channels of capacity 10; the error it returns is
    [ErrInvalidConnectURL] when the URL does not parse and
    [ErrConnectionFailed] when the dial fails. *)
Theorem new_connection_contract (url_Parse : string -> URL + goerror)
    (connectUrl name_ : string) (id_ : Z) (options : list Connection.ConnectionOption)
    (d : DialResult) :
  (exists c h,
     Connection.NewConnection url_Parse connectUrl name_ id_ options d = (Some c, None)
     /\ d = DialOk h
     /\ Connection.conn c = Some {| hid := h; hclosed := false |}
     /\ Connection.flagged c = false
     /\ Connection.name c = name_
     /\ Connection.id c = id_
     /\ Connection.errors c = make 10
     /\ Connection.blockers c = make 10)
  \/ (exists e,
        Connection.NewConnection url_Parse connectUrl name_ id_ options d = (None, Some e)
        /\ ((Is e ErrInvalidConnectURL = true /\ exists pe, url_Parse connectUrl = inr pe)
            \/ (Is e ErrConnectionFailed = true /\ exists de, d = DialErr de))).
Proof.
  unfold Connection.NewConnection.
  destruct (url_Parse connectUrl) as [u|pe].
  - destruct d as [h|de]; simpl.
    + left. do 2 eexists. split; [reflexivity|]. repeat split.
    + right. eexists. split; [reflexivity|]. right. split; [reflexivity|eauto].
  - right. eexists. split; [reflexivity|]. left. split; [reflexivity|eauto].
Qed.

(** * Further properties of the ConnectionPool *)

Section MoreInitFacts.

Variable url_Parse : string -> URL + goerror.

Lemma deriveConnection_cached_ok (cp : ConnectionPool.t) (u : URL) (id : Z) (h : nat) :
  url_Parse (ConnectionPool.url cp) = inl u ->
  exists c,
    ConnectionPool.deriveConnection url_Parse cp None id true (DialOk h) = (Some c, None)
    /\ idle_cached (ConnectionPool.name cp) id c.
Proof.
  intros Hu. unfold ConnectionPool.deriveConnection, Connection.NewConnection.
  rewrite Hu. simpl. eexists. split; [reflexivity|].
  repeat split.
Qed.

(** The loop of [initCachedConns] when every dial succeeds: it appends one
    idle connection per id and changes nothing else of the pool. *)
Lemma initCachedConns_loop_ok (w : ConnectionPool.InitWorld) (u : URL) (n : nat) :
  forall (id : Z) (cp : ConnectionPool.t),
    url_Parse (ConnectionPool.url cp) = inl u ->
    ConnectionPool.ctx cp = None ->
    closed (ConnectionPool.connections cp) = false ->
    (List.length (buf (ConnectionPool.connections cp)) + n
       <= cap (ConnectionPool.connections cp))%nat ->
    (0 <= id)%Z -> (id + Z.of_nat n < 2 ^ 63)%Z ->
    (forall j, (j < n)%nat -> exists h, ConnectionPool.dials w (id + Z.of_nat j) = DialOk h) ->
    exists new,
      ConnectionPool.initCachedConns_loop url_Parse w n id cp
        = Ret (ConnectionPool.set_connections
                 (mkChan (buf (ConnectionPool.connections cp) ++ new)
                         (cap (ConnectionPool.connections cp)) false) cp, None)
      /\ Forall2 (idle_cached (ConnectionPool.name cp)) (ids_from id n) new.
Proof.
  induction n as [|n IH]; intros id cp Hu Hctx Hcl Hcap Hid Hmax Hok.
  - exists []. simpl. rewrite app_nil_r. split; [|constructor].
    destruct cp as [nm ur hb ct sz tl cx [b c cl] ti co]. simpl in *. now subst.
  - rewrite initCachedConns_loop_S.
    destruct (Hok 0%nat) as [h Hh]; [lia|].
    replace (id + Z.of_nat 0)%Z with id in Hh by lia.
    rewrite Hh, Hctx.
    destruct (deriveConnection_cached_ok cp u id h Hu) as (c & -> & Hc).
    assert (Hroom : send_ready (ConnectionPool.connections cp) = true).
    { unfold send_ready. rewrite Hcl. simpl. apply Nat.ltb_lt. lia. }
    assert (Hsel : select (if ConnectionPool.init_pick w id then 1 else 0)%nat
                     [send_ready (ConnectionPool.connections cp); Done None] = Some 0%nat).
    { rewrite Hroom. destruct (ConnectionPool.init_pick w id); reflexivity. }
    rewrite Hsel. unfold send. rewrite Hcl.
    rewrite wrap64_small by lia.
    destruct (IH (id + 1)%Z
                (ConnectionPool.set_connections
                   (mkChan (buf (ConnectionPool.connections cp) ++ [c])
                           (cap (ConnectionPool.connections cp)) false) cp))
      as (new & Hrun & Hall); simpl; auto; try lia.
    + rewrite length_app. simpl. lia.
    + intros j Hj. destruct (Hok (S j)) as [h' Hh']; [lia|].
      exists h'. rewrite <- Hh'. f_equal. lia.
    + exists (c :: new). rewrite Hrun. simpl. rewrite <- app_assoc. simpl.
      split; [reflexivity|]. constructor; assumption.
Qed.

Lemma ids_from_length (n : nat) : forall id, List.length (ids_from id n) = n.
Proof. induction n as [|n IH]; intros id; simpl; [reflexivity|now rewrite IH]. Qed.

End MoreInitFacts.

(** X12.  When the URL parses, the context is live and the broker accepts
    every dial, [NewConnectionPool] returns a pool and no error.  All of its
    [size] cached connections are in the queue, in the order of their ids
    0, 1, ..., each open, unflagged and named
    "<pool>-cached-connection-<id>"; none is handed out, no transient
    connection is counted and the pool's token is live. *)
Theorem new_connection_pool_fills_queue
    (url_Parse url_ParseRequestURI : string -> URL + goerror) (defaultAppName : string)
    (ctx_ : context) (connectUrl : string) (numConns : Z)
    (options : list ConnectionPool.ConnectionPoolOption) (w : ConnectionPool.InitWorld)
    (u u2 : URL) :
  let opt :=
    fold_left (fun o f => f o) options
      (ConnectionPool.mkOption defaultAppName numConns ctx_ (15 * Connection.second)
         (30 * Connection.second) None) in
  (1 <= numConns)%Z ->
  url_ParseRequestURI connectUrl = inl u ->
  url_Parse (URL_String (match ConnectionPool.TLSConfig_ opt with
                         | Some _ => set_Scheme "amqps" u
                         | None => u
                         end)) = inl u2 ->
  ConnectionPool.Ctx opt = None ->
  (0 <= ConnectionPool.Size opt < 2 ^ 63)%Z ->
  (forall j, (j < Z.to_nat (ConnectionPool.Size opt))%nat ->
             exists h, ConnectionPool.dials w (Z.of_nat j) = DialOk h) ->
  exists cp,
    ConnectionPool.NewConnectionPool url_Parse url_ParseRequestURI defaultAppName
      ctx_ connectUrl numConns options w = Ret (Some cp, (Some cp, None))
    /\ Forall2 (idle_cached (ConnectionPool.Name opt))
         (ids_from 0 (Z.to_nat (ConnectionPool.Size opt)))
         (buf (ConnectionPool.connections cp))
    /\ ConnectionPool.Size_ cp = ConnectionPool.Size opt
    /\ ConnectionPool.StatCachedIdle cp = ConnectionPool.Size opt
    /\ ConnectionPool.StatCachedActive cp = 0%Z
    /\ ConnectionPool.StatTransientActive cp = 0%Z
    /\ ConnectionPool.catchShutdown cp = false.
Proof.
  intros opt Hn Hu Hu2 Hctx Hsize Hok.
  unfold ConnectionPool.NewConnectionPool.
  replace (numConns <? 1)%Z with false by (symmetry; apply Z.ltb_ge; lia).
  fold opt. unfold ConnectionPool.newConnectionPoolFromOption. rewrite Hu.
  replace (ConnectionPool.Size opt <? 0)%Z with false by (symmetry; apply Z.ltb_ge; lia).
  unfold ConnectionPool.initCachedConns. cbn [ConnectionPool.size].
  match goal with
  | |- context [ConnectionPool.initCachedConns_loop _ _ ?n ?id ?cp0] =>
      pose proof (initCachedConns_loop_ok url_Parse w u2 n id cp0 Hu2 Hctx eq_refl) as G
  end.
  destruct G as (new & Hrun & Hall).
  - simpl. lia.
  - lia.
  - rewrite Z2Nat.id; lia.
  - exact Hok.
  - rewrite Hrun. eexists. split; [reflexivity|].
    pose proof (Forall2_length Hall) as Hlen. rewrite ids_from_length in Hlen.
    split; [exact Hall|].
    unfold ConnectionPool.Size_, ConnectionPool.StatCachedIdle, ConnectionPool.StatCachedActive,
      ConnectionPool.StatTransientActive, ConnectionPool.catchShutdown, len.
    simpl. rewrite <- Hlen, Z2Nat.id by lia.
    repeat split.
    + rewrite Z.sub_diag. reflexivity.
    + unfold WithCancel. now rewrite Hctx.
Qed.

Lemma new_connection_pool_fills_queue_witness :
  exists cp,
    ConnectionPool.NewConnectionPool parse0 parse0 "app" None "broker:5672/" 3 [] world_up
      = Ret (Some cp, (Some cp, None))
    /\ Forall2 (idle_cached "app") (ids_from 0 3) (buf (ConnectionPool.connections cp))
    /\ ConnectionPool.Size_ cp = 3%Z
    /\ ConnectionPool.StatCachedIdle cp = 3%Z
    /\ ConnectionPool.StatCachedActive cp = 0%Z
    /\ ConnectionPool.StatTransientActive cp = 0%Z
    /\ ConnectionPool.catchShutdown cp = false.
Proof.
  apply (new_connection_pool_fills_queue parse0 parse0 "app" None "broker:5672/" 3 []
           world_up {| Scheme := "amqp"; Rest := "broker:5672/" |}
           {| Scheme := "amqp"; Rest := "amqp://broker:5672/" |}).
  - lia.
  - reflexivity.
  - reflexivity.
  - reflexivity.
  - simpl. lia.
  - intros j _. eexists. reflexivity.
Defined.

(** What a [GetConnection] that hands out a connection did to the pool: it
    took the head of the queue and nothing else. *)
Lemma get_connection_some (ctx_ : context) (pick : nat) (sch : Sched)
    (script : list Attempt) (cp cp1 : ConnectionPool.t) (c : Connection.t)
    (e : option goerror) :
  ConnectionPool.GetConnection ctx_ pick sch script cp = Ret (cp1, (Some c, e)) ->
  exists c0 rest,
    buf (ConnectionPool.connections cp) = c0 :: rest
    /\ cp1 = ConnectionPool.set_connections
               (mkChan rest (cap (ConnectionPool.connections cp))
                       (closed (ConnectionPool.connections cp))) cp.
Proof.
  unfold ConnectionPool.GetConnection.
  destruct (select pick _) as [[|[|i]]|]; try discriminate.
  unfold recv.
  destruct (buf (ConnectionPool.connections cp)) as [|c0 rest]; [discriminate|].
  destruct (Connection.IsFlagged c0).
  - destruct (Connection.Recover sch script c0) as [[[e1|] c1]| | |]; try discriminate.
    intros H. inversion H. eauto.
  - intros H. inversion H. eauto.
Qed.

(** X13.  A [GetConnection] followed by a [ReturnConnection] with no error,
    or with a cancellation-class error, rotates the queue: the unflagged
    connection at the head is handed out as it is, the queue is one shorter
    while it is out, and the return puts it back, unchanged, at the tail,
    leaving the rest of the pool as it was. *)
Theorem get_then_return_rotates_queue (ctx_ : context) (sch : Sched)
    (script : list Attempt) (herr err : option goerror) (cp : ConnectionPool.t)
    (c0 : Connection.t) (rest : list Connection.t) :
  buf (ConnectionPool.connections cp) = c0 :: rest ->
  closed (ConnectionPool.connections cp) = false ->
  (List.length (c0 :: rest) <= cap (ConnectionPool.connections cp))%nat ->
  Connection.flagged c0 = false ->
  Connection.IsCached c0 = true ->
  flaggable err = false ->
  exists cp1,
    ConnectionPool.GetConnection ctx_ 0 sch script cp = Ret (cp1, (Some c0, None))
    /\ ConnectionPool.StatCachedIdle cp1 = (ConnectionPool.StatCachedIdle cp - 1)%Z
    /\ ConnectionPool.ReturnConnection herr c0 err cp1
       = Ret (ConnectionPool.set_connections
                (mkChan (rest ++ [c0]) (cap (ConnectionPool.connections cp)) false) cp,
              c0)
    /\ ConnectionPool.StatCachedIdle
         (ConnectionPool.set_connections
            (mkChan (rest ++ [c0]) (cap (ConnectionPool.connections cp)) false) cp)
       = ConnectionPool.StatCachedIdle cp.
Proof.
  intros Hb Hcl Hcap Hf Hc Herr.
  unfold ConnectionPool.GetConnection, select, recv_ready, recv. rewrite Hb. simpl.
  unfold Connection.IsFlagged. rewrite Hf, Hcl.
  eexists. split; [reflexivity|].
  unfold ConnectionPool.StatCachedIdle, len. simpl. rewrite Hb. simpl List.length.
  split; [lia|].
  unfold ConnectionPool.ReturnConnection. rewrite Hc, Herr. simpl negb. cbv iota.
  unfold Connection.Flag. rewrite andb_false_r.
  unfold select, send_ready, send. simpl.
  simpl in Hcap.
  replace (List.length rest <? cap (ConnectionPool.connections cp))%nat with true
    by (symmetry; apply Nat.ltb_lt; lia).
  simpl. split; [reflexivity|].
  rewrite length_app. simpl. lia.
Qed.

Lemma get_then_return_rotates_queue_witness :
  exists cp1,
    ConnectionPool.GetConnection None 0 sched0 [] pool_idle = Ret (cp1, (Some conn0, None))
    /\ ConnectionPool.StatCachedIdle cp1 = (ConnectionPool.StatCachedIdle pool_idle - 1)%Z
    /\ ConnectionPool.ReturnConnection None conn0 (Some ContextCanceled) cp1
       = Ret (ConnectionPool.set_connections
                (mkChan ([conn_b] ++ [conn0]) (cap (ConnectionPool.connections pool_idle)) false)
                pool_idle,
              conn0)
    /\ ConnectionPool.StatCachedIdle
         (ConnectionPool.set_connections
            (mkChan ([conn_b] ++ [conn0]) (cap (ConnectionPool.connections pool_idle)) false)
            pool_idle)
       = ConnectionPool.StatCachedIdle pool_idle.
Proof.
  apply (get_then_return_rotates_queue None sched0 [] None (Some ContextCanceled)
           pool_idle conn0 [conn_b]); reflexivity.
Defined.

(** X14.  [GetConnection] returns an error only upon shutdown: whenever it
    returns an error it returns no connection, and the error is
    cancellation-class (the caller's context error, or one wrapping
    [ErrClosed] or [ErrPoolClosed]), so that it would not flag a
    Connection. *)
Theorem get_connection_errors_are_cancellations (ctx_ : context) (pick : nat)
    (sch : Sched) (script : list Attempt) (cp cp' : ConnectionPool.t)
    (r : option Connection.t) (e : goerror) :
  ConnectionPool.GetConnection ctx_ pick sch script cp = Ret (cp', (r, Some e)) ->
  r = None /\ shutdown_class e = true /\ flaggable (Some e) = false.
Proof.
  intros H.
  assert (G : r = None /\ shutdown_class e = true).
  { revert H. unfold ConnectionPool.GetConnection.
    destruct (select pick _) as [[|[|i]]|]; try discriminate.
    - destruct (recv (ConnectionPool.connections cp)) as [[c0 q]|].
      + destruct (Connection.IsFlagged c0).
        * destruct (Connection.Recover sch script c0) as [[[e1|] c1]| | |] eqn:Hr;
            try discriminate.
          intros H. inversion H. subst.
          apply recover_error in Hr. subst e1. split; reflexivity.
        * discriminate.
      + intros H. inversion H. split; reflexivity.
    - intros H. inversion H as [[Hcp Hr He]]. split; [reflexivity|].
      destruct ctx_ as [[|]|]; simpl in He; inversion He; reflexivity.
    - intros H. inversion H. split; reflexivity. }
  destruct G as [Hr Hs]. repeat split; auto. simpl. now rewrite Hs.
Qed.

Lemma get_connection_errors_are_cancellations_witness :
  @None Connection.t = None
  /\ shutdown_class ContextDeadlineExceeded = true
  /\ flaggable (Some ContextDeadlineExceeded) = false.
Proof.
  apply (get_connection_errors_are_cancellations (Some DeadlineExceeded) 1 sched0 []
           pool_idle pool_idle None ContextDeadlineExceeded).
  reflexivity.
Defined.

Lemma deriveConnection_transient_ok (url_Parse : string -> URL + goerror)
    (cp : ConnectionPool.t) (ctx_ : context) (u : URL) (id : Z) (h : nat) :
  url_Parse (ConnectionPool.url cp) = inl u ->
  exists c,
    ConnectionPool.deriveConnection url_Parse cp ctx_ id false (DialOk h) = (Some c, None)
    /\ Connection.IsCached c = false
    /\ Connection.name c
       = (ConnectionPool.name cp ++ "-transient-connection-" ++ fmt_d id)%string.
Proof.
  intros Hu. unfold ConnectionPool.deriveConnection, Connection.NewConnection.
  rewrite Hu. simpl. eexists. split; [reflexivity|]. split; reflexivity.
Qed.

(** X15.  A transient connection is counted while it is out and only then:
    [GetTransientConnection] with a broker that accepts the dial returns an
    uncached connection named "<pool>-transient-connection-<id>" for the
    next transient id and increments the live-transient counter; the
    [ReturnConnection] of that connection closes it and decrements the
    counter back, whatever error it is returned with.  The queue of cached
    connections is the same before, in between and after. *)
Theorem transient_get_then_return (url_Parse : string -> URL + goerror) (ctx_ : context)
    (h : nat) (sch : Sched) (script : list Attempt) (herr err : option goerror)
    (cp : ConnectionPool.t) (u : URL) :
  url_Parse (ConnectionPool.url cp) = inl u ->
  (0 <= ConnectionPool.transientID cp < 2 ^ 63 - 1)%Z ->
  (- 2 ^ 63 <= ConnectionPool.concurrentTransient cp < 2 ^ 63 - 1)%Z ->
  exists cp1 c cp2 c',
    ConnectionPool.GetTransientConnection url_Parse ctx_ (DialOk h) sch script cp
      = Ret (cp1, (Some c, None))
    /\ Connection.IsCached c = false
    /\ Connection.name c
       = (ConnectionPool.name cp ++ "-transient-connection-"
            ++ fmt_d (ConnectionPool.transientID cp))%string
    /\ ConnectionPool.StatTransientActive cp1 = (ConnectionPool.StatTransientActive cp + 1)%Z
    /\ ConnectionPool.transientID cp1 = (ConnectionPool.transientID cp + 1)%Z
    /\ ConnectionPool.connections cp1 = ConnectionPool.connections cp
    /\ ConnectionPool.ReturnConnection herr c err cp1 = Ret (cp2, c')
    /\ Connection.IsClosed c' = true
    /\ ConnectionPool.StatTransientActive cp2 = ConnectionPool.StatTransientActive cp
    /\ ConnectionPool.connections cp2 = ConnectionPool.connections cp.
Proof.
  intros Hu Hid Hn.
  destruct (deriveConnection_transient_ok url_Parse
              (ConnectionPool.set_transientID
                 (wrap64 (ConnectionPool.transientID cp + 1)) cp)
              ctx_ u (ConnectionPool.transientID cp) h Hu) as (c & Hd & Hc & Hname).
  exists (ConnectionPool.incTransient
            (ConnectionPool.set_transientID
               (wrap64 (ConnectionPool.transientID cp + 1)) cp)), c.
  exists (ConnectionPool.decTransient
            (ConnectionPool.incTransient
               (ConnectionPool.set_transientID
                  (wrap64 (ConnectionPool.transientID cp + 1)) cp))),
         (snd (Connection.Close herr c)).
  split.
  { unfold ConnectionPool.GetTransientConnection, ConnectionPool.nextTransientID.
    rewrite Hd. reflexivity. }
  split; [exact Hc|]. split; [exact Hname|].
  unfold ConnectionPool.StatTransientActive.
  cbn [ConnectionPool.incTransient ConnectionPool.decTransient
       ConnectionPool.set_transientID ConnectionPool.set_concurrentTransient
       ConnectionPool.concurrentTransient ConnectionPool.transientID
       ConnectionPool.connections].
  split; [apply wrap64_small; lia|].
  split; [apply wrap64_small; lia|].
  split; [reflexivity|].
  split.
  { unfold ConnectionPool.ReturnConnection. rewrite Hc. simpl negb. cbv iota.
    destruct (Connection.Close herr c). reflexivity. }
  split; [apply Close_closes|].
  split; [|reflexivity].
  rewrite (wrap64_small (ConnectionPool.concurrentTransient cp + 1)) by lia.
  rewrite wrap64_small by lia. lia.
Qed.

Lemma transient_get_then_return_witness :
  exists cp1 c cp2 c',
    ConnectionPool.GetTransientConnection parse0 None (DialOk 8) sched0 [] pool_idle
      = Ret (cp1, (Some c, None))
    /\ Connection.IsCached c = false
    /\ Connection.name c = "app-transient-connection-0"
    /\ ConnectionPool.StatTransientActive cp1 = 1%Z
    /\ ConnectionPool.transientID cp1 = 1%Z
    /\ ConnectionPool.connections cp1 = ConnectionPool.connections pool_idle
    /\ ConnectionPool.ReturnConnection None c (Some (Amqp amqp_err1)) cp1 = Ret (cp2, c')
    /\ Connection.IsClosed c' = true
    /\ ConnectionPool.StatTransientActive cp2 = 0%Z
    /\ ConnectionPool.connections cp2 = ConnectionPool.connections pool_idle.
Proof.
  apply (transient_get_then_return parse0 None 8 sched0 [] None (Some (Amqp amqp_err1))
           pool_idle {| Scheme := "amqp"; Rest := "amqp://broker:5672/" |}).
  - reflexivity.
  - simpl. lia.
  - simpl. lia.
Defined.

Lemma closed_by_Close (cs : list Connection.t) :
  Forall (fun c => Connection.IsClosed c = true /\ Connection.done c = true)
         (map (fun conn => snd (Connection.Close None conn)) cs).
Proof.
  induction cs as [|c cs IH]; simpl; constructor; [|exact IH].
  destruct (Close_closes None c) as (H1 & H2 & _). auto.
Qed.

(** After shutdown, with nothing in the queue, every [GetConnection]
    returns a cancellation-class error. *)
Lemma get_connection_after_shutdown (ctx_ : context) (pick : nat) (sch : Sched)
    (script : list Attempt) (cp : ConnectionPool.t) :
  ConnectionPool.catchShutdown cp = true ->
  buf (ConnectionPool.connections cp) = [] ->
  closed (ConnectionPool.connections cp) = false ->
  exists e,
    ConnectionPool.GetConnection ctx_ pick sch script cp = Ret (cp, (None, Some e))
    /\ shutdown_class e = true.
Proof.
  intros Hs Hb Hc. unfold ConnectionPool.GetConnection, select, recv_ready.
  rewrite Hs, Hb, Hc.
  destruct ctx_ as [[|]|]; destruct pick as [|[|[|p]]]; simpl;
    try (eexists; split; reflexivity);
    destruct p; eexists; split; reflexivity.
Qed.

Lemma pool_Close_idle (cp : ConnectionPool.t) :
  closed (ConnectionPool.connections cp) = false ->
  Z.of_nat (List.length (buf (ConnectionPool.connections cp))) = ConnectionPool.size cp ->
  ConnectionPool.Close cp
  = Ret (ConnectionPool.set_connections
           (mkChan [] (cap (ConnectionPool.connections cp)) false)
           (ConnectionPool.set_ctx (cancel_ctx (ConnectionPool.ctx cp)) cp),
         map (fun conn => snd (Connection.Close None conn))
             (buf (ConnectionPool.connections cp))).
Proof.
  intros Hc Hn. unfold ConnectionPool.Close.
  replace (ConnectionPool.size cp <? 0)%Z with false by (symmetry; apply Z.ltb_ge; lia).
  cbn [ConnectionPool.size ConnectionPool.set_ctx ConnectionPool.connections].
  rewrite <- Hn, Nat2Z.id, Nat.ltb_irrefl, firstn_all, skipn_all, Hc.
  reflexivity.
Qed.

(** X16.  [Close] of a connection pool whose cached connections are all
    idle cancels the pool's context and receives and closes every one of
    them: the queue is left empty, each connection has its token fired and
    reports closed, and from then on [GetConnection] returns a
    cancellation-class error and no connection, whatever the caller's
    context. *)
Theorem pool_close_closes_idle_connections (cp : ConnectionPool.t) :
  closed (ConnectionPool.connections cp) = false ->
  Z.of_nat (List.length (buf (ConnectionPool.connections cp))) = ConnectionPool.size cp ->
  exists cp' cs,
    ConnectionPool.Close cp = Ret (cp', cs)
    /\ buf (ConnectionPool.connections cp') = []
    /\ ConnectionPool.catchShutdown cp' = true
    /\ List.length cs = List.length (buf (ConnectionPool.connections cp))
    /\ Forall (fun c => Connection.IsClosed c = true /\ Connection.done c = true) cs
    /\ (forall ctx_ pick sch script,
          exists e,
            ConnectionPool.GetConnection ctx_ pick sch script cp' = Ret (cp', (None, Some e))
            /\ shutdown_class e = true).
Proof.
  intros Hc Hn. unfold ConnectionPool.Close.
  replace (ConnectionPool.size cp <? 0)%Z with false by (symmetry; apply Z.ltb_ge; lia).
  cbn [ConnectionPool.size ConnectionPool.set_ctx ConnectionPool.connections].
  rewrite <- Hn, Nat2Z.id, Nat.ltb_irrefl, firstn_all, skipn_all.
  do 2 eexists. split; [reflexivity|].
  split; [reflexivity|].
  assert (Hs : Done (cancel_ctx (ConnectionPool.ctx cp)) = true).
  { destruct (ConnectionPool.ctx cp); reflexivity. }
  split; [exact Hs|].
  split; [apply length_map|].
  split; [apply closed_by_Close|].
  intros ctx_ pick sch script.
  apply get_connection_after_shutdown; [exact Hs|reflexivity|exact Hc].
Qed.

Lemma pool_close_closes_idle_connections_witness :
  exists cp' cs,
    ConnectionPool.Close pool_idle = Ret (cp', cs)
    /\ buf (ConnectionPool.connections cp') = []
    /\ ConnectionPool.catchShutdown cp' = true
    /\ List.length cs = 2%nat
    /\ Forall (fun c => Connection.IsClosed c = true /\ Connection.done c = true) cs
    /\ (forall ctx_ pick sch script,
          exists e,
            ConnectionPool.GetConnection ctx_ pick sch script cp' = Ret (cp', (None, Some e))
            /\ shutdown_class e = true).
Proof.
  apply (pool_close_closes_idle_connections pool_idle); reflexivity.
Defined.

(** X17.  [Close] of a connection pool waits for every cached connection:
    it blocks while one of them is lent out, and on a pool with at least
    one connection it blocks when called a second time, the first call
    having emptied the queue. *)
Theorem pool_close_waits_for_every_connection (cp : ConnectionPool.t) :
  closed (ConnectionPool.connections cp) = false ->
  Z.of_nat (List.length (buf (ConnectionPool.connections cp))) = ConnectionPool.size cp ->
  (1 <= ConnectionPool.size cp)%Z ->
  (exists cp' cs,
     ConnectionPool.Close cp = Ret (cp', cs) /\ ConnectionPool.Close cp' = Blocked)
  /\ (forall ctx_ pick sch script cp1 c e,
        ConnectionPool.GetConnection ctx_ pick sch script cp = Ret (cp1, (Some c, e)) ->
        ConnectionPool.Close cp1 = Blocked).
Proof.
  intros Hc Hn Hsz. split.
  - rewrite (pool_Close_idle cp Hc Hn).
    do 2 eexists. split; [reflexivity|].
    unfold ConnectionPool.Close.
    cbn [ConnectionPool.size ConnectionPool.set_ctx ConnectionPool.set_connections
         ConnectionPool.connections buf closed List.length].
    replace (ConnectionPool.size cp <? 0)%Z with false by (symmetry; apply Z.ltb_ge; lia).
    replace (0 <? Z.to_nat (ConnectionPool.size cp))%nat with true
      by (symmetry; apply Nat.ltb_lt; lia).
    reflexivity.
  - intros ctx_ pick sch script cp1 c e Hget.
    apply get_connection_some in Hget. destruct Hget as (c0 & rest & Hb & ->).
    unfold ConnectionPool.Close.
    cbn [ConnectionPool.size ConnectionPool.set_ctx ConnectionPool.set_connections
         ConnectionPool.connections buf closed].
    replace (ConnectionPool.size cp <? 0)%Z with false by (symmetry; apply Z.ltb_ge; lia).
    rewrite Hb in Hn. simpl List.length in Hn.
    replace (List.length rest <? Z.to_nat (ConnectionPool.size cp))%nat with true
      by (symmetry; apply Nat.ltb_lt; lia).
    now rewrite Hc.
Qed.

Lemma pool_close_waits_for_every_connection_witness :
  (exists cp' cs,
     ConnectionPool.Close pool_idle = Ret (cp', cs) /\ ConnectionPool.Close cp' = Blocked)
  /\ (forall ctx_ pick sch script cp1 c e,
        ConnectionPool.GetConnection ctx_ pick sch script pool_idle = Ret (cp1, (Some c, e)) ->
        ConnectionPool.Close cp1 = Blocked).
Proof.
  apply (pool_close_waits_for_every_connection pool_idle).
  - reflexivity.
  - reflexivity.
  - simpl. lia.
Defined.

(** * Further properties of the SessionPool *)

Lemma select_second_of_two (pick : nat) : select pick [false; true] = Some 1%nat.
Proof.
  unfold select. destruct pick as [|[|[|p]]]; simpl; try reflexivity.
Qed.

Lemma select_first_of_three (pick : nat) : select pick [true; false; false] = Some 0%nat.
Proof.
  unfold select. destruct pick as [|[|[|[|p]]]]; simpl; try reflexivity.
Qed.

(** X18.  [Close] of a session pool is idempotent: the first call closes
    the sessions that were queued and leaves the queue empty, and a second
    call finds nothing to close and returns the pool as it is. *)
Theorem session_pool_close_is_idempotent (sp : SessionPool.t) :
  closed (SessionPool.sessions sp) = false ->
  exists sp',
    SessionPool.Close sp = Ret (sp', map Session.Close (buf (SessionPool.sessions sp)))
    /\ SessionPool.Close sp' = Ret (sp', []).
Proof.
  intros Hc. unfold SessionPool.Close. rewrite Hc.
  eexists. split; reflexivity.
Qed.

Lemma session_pool_close_is_idempotent_witness :
  exists sp',
    SessionPool.Close spool1 = Ret (sp', map Session.Close (buf (SessionPool.sessions spool1)))
    /\ SessionPool.Close sp' = Ret (sp', []).
Proof.
  apply (session_pool_close_is_idempotent spool1). reflexivity.
Defined.

(** X19.  While the session pool's token is live, a [GetSession] followed
    by a [ReturnSession] without error rotates the queue, whatever the
    scheduler prefers: the session at the head is handed out, and the return
    flushes its confirmations and puts it back at the tail. *)
Theorem get_session_then_return_rotates_queue (r : option goerror) (pick pick' : nat)
    (sp : SessionPool.t) (s0 : Session.t) (rest : list Session.t) :
  SessionPool.catchShutdown sp = false ->
  buf (SessionPool.sessions sp) = s0 :: rest ->
  closed (SessionPool.sessions sp) = false ->
  (List.length (s0 :: rest) <= cap (SessionPool.sessions sp))%nat ->
  Session.IsCached s0 = true ->
  exists sp1,
    SessionPool.GetSession pick sp = Ret (sp1, (Some s0, None))
    /\ buf (SessionPool.sessions sp1) = rest
    /\ SessionPool.ReturnSession r pick' s0 false sp1
       = Ret (SessionPool.set_sessions
                (mkChan (rest ++ [Session.flushConfirms s0])
                        (cap (SessionPool.sessions sp)) false) sp,
              Session.flushConfirms s0).
Proof.
  intros Hs Hb Hc Hcap Hca.
  unfold SessionPool.GetSession, recv_ready, recv. rewrite Hs, Hb.
  rewrite select_second_of_two.
  eexists. split; [reflexivity|]. split; [reflexivity|].
  unfold SessionPool.ReturnSession. rewrite Hca. simpl negb. cbv iota.
  unfold SessionPool.catchShutdown in *. simpl. rewrite Hs.
  unfold send_ready, send. simpl. rewrite Hc. simpl.
  simpl in Hcap.
  replace (List.length rest <? cap (SessionPool.sessions sp))%nat with true
    by (symmetry; apply Nat.ltb_lt; lia).
  rewrite select_second_of_two. reflexivity.
Qed.

Lemma get_session_then_return_rotates_queue_witness :
  exists sp1,
    SessionPool.GetSession 0 spool1
      = Ret (sp1, (Some (Session.mk 1 "app-cached-connection-1" 3 false true false None []),
                   None))
    /\ buf (SessionPool.sessions sp1)
       = [Session.mk 2 "app-cached-connection-0" 3 false true false None []]
    /\ SessionPool.ReturnSession None 0
         (Session.mk 1 "app-cached-connection-1" 3 false true false None []) false sp1
       = Ret (SessionPool.set_sessions
                (mkChan ([Session.mk 2 "app-cached-connection-0" 3 false true false None []]
                         ++ [Session.flushConfirms
                               (Session.mk 1 "app-cached-connection-1" 3 false true false
                                  None [])])
                        (cap (SessionPool.sessions spool1)) false) spool1,
              Session.flushConfirms
                (Session.mk 1 "app-cached-connection-1" 3 false true false None [])).
Proof.
  apply (get_session_then_return_rotates_queue None 0 0 spool1
           (Session.mk 1 "app-cached-connection-1" 3 false true false None [])
           [Session.mk 2 "app-cached-connection-0" 3 false true false None []]);
    try reflexivity.
  simpl. lia.
Defined.

(** X20.  [GetSession] returns an error only upon shutdown: whenever it
    returns an error it returns no session and leaves the pool as it is, the
    error is [ErrClosed], and the pool's token has fired or its queue was
    closed. *)
Theorem get_session_errors_are_shutdown (pick : nat) (sp sp' : SessionPool.t)
    (r : option Session.t) (e : goerror) :
  SessionPool.GetSession pick sp = Ret (sp', (r, Some e)) ->
  r = None
  /\ sp' = sp
  /\ Is e ErrClosed = true
  /\ (SessionPool.catchShutdown sp = true \/ closed (SessionPool.sessions sp) = true).
Proof.
  unfold SessionPool.GetSession.
  destruct (select pick _) as [i|] eqn:Hsel; [|discriminate].
  pose proof (select_ready _ _ _ Hsel) as Hi.
  destruct i as [|i].
  - intros H. inversion H. subst. simpl in Hi. repeat split. now left.
  - unfold recv. destruct (buf (SessionPool.sessions sp)) as [|s q] eqn:Hb.
    + intros H. inversion H. subst. repeat split.
      destruct i as [|i]; simpl in Hi.
      * unfold recv_ready in Hi. rewrite Hb in Hi. now right.
      * destruct i; discriminate.
    + discriminate.
Qed.

Lemma get_session_errors_are_shutdown_witness :
  @None Session.t = None
  /\ SessionPool.mk 0 3 1 false (make 3) (Some Canceled)
     = SessionPool.mk 0 3 1 false (make 3) (Some Canceled)
  /\ Is ErrClosed ErrClosed = true
  /\ (SessionPool.catchShutdown (SessionPool.mk 0 3 1 false (make 3) (Some Canceled)) = true
      \/ closed (SessionPool.sessions (SessionPool.mk 0 3 1 false (make 3) (Some Canceled)))
         = true).
Proof.
  apply (get_session_errors_are_shutdown 1
           (SessionPool.mk 0 3 1 false (make 3) (Some Canceled))
           (SessionPool.mk 0 3 1 false (make 3) (Some Canceled)) None ErrClosed).
  reflexivity.
Defined.

Section SessionInitFacts.

(** One round of [initCachedSession] on a live pool whose head connection
    is healthy, with a broker that opens the session: the session is bound
    to the head connection, which goes back to the tail unflagged. *)
Lemma initCachedSession_head (r : SessionPool.InitRound) (rest : list SessionPool.InitRound)
    (id : Z) (cp : ConnectionPool.t) (sp : SessionPool.t) (c0 : Connection.t)
    (q' : list Connection.t) :
  ConnectionPool.ctx cp = None ->
  buf (ConnectionPool.connections cp) = c0 :: q' ->
  closed (ConnectionPool.connections cp) = false ->
  (List.length (c0 :: q') <= cap (ConnectionPool.connections cp))%nat ->
  Connection.flagged c0 = false ->
  Connection.IsCached c0 = true ->
  SessionPool.opened r = None ->
  SessionPool.initCachedSession (r :: rest) id cp sp
  = Ret (rest,
         ConnectionPool.set_connections
           (mkChan (q' ++ [c0]) (cap (ConnectionPool.connections cp)) false) cp,
         (Some (Session.mk id (Connection.name c0) (SessionPool.size sp)
                  (SessionPool.confirmable sp) true false (SessionPool.ctx sp) []),
          None)).
Proof.
  intros Hctx Hb Hcl Hcap Hf Hc Ho.
  cbn [SessionPool.initCachedSession].
  unfold SessionPool.pool_GetConnection, ConnectionPool.GetConnection,
    ConnectionPool.catchShutdown, recv_ready, recv.
  rewrite Hctx, Hb. cbn [Done]. rewrite select_first_of_three.
  unfold Connection.IsFlagged. rewrite Hf.
  unfold SessionPool.deriveSession, Session.NewSession. rewrite Ho.
  cbn [fold_left Session.BufferSize Session.Confirmable Session.Cached
       Session.AutoCloseConn Session.Ctx Session.SessionWithContext
       Session.SessionWithBufferSize Session.SessionWithCached
       Session.SessionWithConfirms Session.default_option WithCancel].
  unfold SessionPool.pool_ReturnConnection, ConnectionPool.ReturnConnection.
  rewrite Hc. cbn [negb flaggable]. unfold Connection.Flag. rewrite andb_false_r.
  unfold select, send_ready, send.
  cbn [ConnectionPool.connections ConnectionPool.set_connections buf cap closed nth].
  rewrite Hcl. simpl in Hcap.
  replace (List.length q' <? cap (ConnectionPool.connections cp))%nat with true
    by (symmetry; apply Nat.ltb_lt; lia).
  reflexivity.
Qed.

(** The loop of [initCachedSessions] over the connections [q1] at the head
    of the pool's queue. *)
Lemma initCachedSessions_loop_round_robin (q1 : list Connection.t) :
  forall (rounds : list SessionPool.InitRound) (i : Z) (cp : ConnectionPool.t)
         (sp : SessionPool.t) (q2 : list Connection.t),
    ConnectionPool.ctx cp = None ->
    buf (ConnectionPool.connections cp) = q1 ++ q2 ->
    closed (ConnectionPool.connections cp) = false ->
    (List.length (q1 ++ q2) <= cap (ConnectionPool.connections cp))%nat ->
    Forall (fun c => Connection.flagged c = false /\ Connection.IsCached c = true) q1 ->
    Forall (fun r => SessionPool.opened r = None) rounds ->
    (List.length q1 <= List.length rounds)%nat ->
    closed (SessionPool.sessions sp) = false ->
    (List.length (buf (SessionPool.sessions sp)) + List.length q1
       <= cap (SessionPool.sessions sp))%nat ->
    (0 <= i)%Z -> (i + Z.of_nat (List.length q1) < 2 ^ 63)%Z ->
    SessionPool.initCachedSessions_loop rounds (List.length q1) i cp sp
    = Ret (ConnectionPool.set_connections
             (mkChan (q2 ++ q1) (cap (ConnectionPool.connections cp)) false) cp,
           SessionPool.set_sessions
             (mkChan (buf (SessionPool.sessions sp)
                        ++ sessions_on (SessionPool.size sp) (SessionPool.confirmable sp)
                             (SessionPool.ctx sp) i q1)
                     (cap (SessionPool.sessions sp)) false) sp,
           None).
Proof.
  induction q1 as [|c0 q1 IH];
    intros rounds i cp sp q2 Hctx Hb Hcl Hcap Hall Hrounds Hlen Hscl Hscap Hi Hmax.
  - simpl. rewrite !app_nil_r. simpl in Hb.
    destruct cp as [nm ur hb ct sz tl cx [b c cl] ti co].
    destruct sp as [t ssz bs cf [sb sc scl] scx]. simpl in *. now subst.
  - destruct rounds as [|r rounds]; [simpl in Hlen; lia|].
    inversion Hall as [|? ? [Hf Hc] Hall']; subst.
    inversion Hrounds as [|? ? Ho Hrounds']; subst.
    cbn [List.length SessionPool.initCachedSessions_loop].
    rewrite (initCachedSession_head r rounds i cp sp c0 (q1 ++ q2)); auto.
    unfold send_ready, send. rewrite Hscl. cbn [orb].
    simpl in Hscap.
    replace (List.length (buf (SessionPool.sessions sp)) <? cap (SessionPool.sessions sp))%nat
      with true by (symmetry; apply Nat.ltb_lt; lia).
    simpl in Hmax. rewrite wrap64_small by lia.
    rewrite (IH rounds (i + 1)%Z _ _ (q2 ++ [c0])); cbn; auto; try lia.
    + rewrite <- !app_assoc. reflexivity.
    + now rewrite <- app_assoc.
    + rewrite !length_app in *. simpl in *. lia.
    + simpl in Hlen. lia.
    + rewrite length_app. simpl. lia.
Qed.

End SessionInitFacts.

(** X21.  A session pool no larger than the idle part of a live, healthy
    connection pool is built round-robin: with a broker that opens every
    session, [NewSessionPool] returns a pool whose queue holds the sessions
    0, 1, ... in order, session [i] derived as a cached session on the
    [i]-th connection of the connection pool's queue; every connection it
    used went back to the tail of that queue unflagged, so the queue ends
    rotated by the number of sessions. *)
Theorem new_session_pool_is_round_robin (pool : ConnectionPool.t) (size_ : Z)
    (options : list SessionPool.SessionPoolOption) (rounds : list SessionPool.InitRound)
    (q1 q2 : list Connection.t) :
  let opt :=
    fold_left (fun o f => f o) options
      (SessionPool.mkOption size_ false 1 (ConnectionPool.ctx pool)) in
  (1 <= size_)%Z ->
  SessionPool.Size opt = Z.of_nat (List.length q1) ->
  ConnectionPool.ctx pool = None ->
  buf (ConnectionPool.connections pool) = q1 ++ q2 ->
  closed (ConnectionPool.connections pool) = false ->
  (List.length (q1 ++ q2) <= cap (ConnectionPool.connections pool))%nat ->
  Forall (fun c => Connection.flagged c = false /\ Connection.IsCached c = true) q1 ->
  Forall (fun r => SessionPool.opened r = None) rounds ->
  (List.length q1 <= List.length rounds)%nat ->
  (Z.of_nat (List.length q1) < 2 ^ 63)%Z ->
  exists sp,
    SessionPool.NewSessionPool pool size_ options rounds
      = Ret (ConnectionPool.set_connections
               (mkChan (q2 ++ q1) (cap (ConnectionPool.connections pool)) false) pool,
             (Some sp, None))
    /\ buf (SessionPool.sessions sp)
       = sessions_on (SessionPool.Size opt) (SessionPool.Confirmable opt)
           (SessionPool.Ctx opt) 0 q1
    /\ SessionPool.Size_ sp = SessionPool.Size opt.
Proof.
  intros opt Hn Hsize Hctx Hb Hcl Hcap Hall Hrounds Hlen Hmax.
  unfold SessionPool.NewSessionPool.
  replace (size_ <? 1)%Z with false by (symmetry; apply Z.ltb_ge; lia).
  fold opt. unfold SessionPool.newSessionPoolFromOption.
  replace (SessionPool.Size opt <? 0)%Z with false by (symmetry; apply Z.ltb_ge; lia).
  unfold SessionPool.initCachedSessions. cbn [SessionPool.size].
  rewrite Hsize, Nat2Z.id.
  rewrite (initCachedSessions_loop_round_robin q1 rounds 0 pool _ q2);
    auto; try lia; try (cbn; lia).
  eexists. split; [reflexivity|]. split; reflexivity.
Qed.

Lemma new_session_pool_is_round_robin_witness :
  exists sp,
    SessionPool.NewSessionPool pool_idle 2 [] [round_ok; round_ok]
      = Ret (ConnectionPool.set_connections
               (mkChan ([] ++ [conn0; conn_b]) (cap (ConnectionPool.connections pool_idle)) false)
               pool_idle,
             (Some sp, None))
    /\ buf (SessionPool.sessions sp) = sessions_on 2 false None 0 [conn0; conn_b]
    /\ SessionPool.Size_ sp = 2%Z.
Proof.
  apply (new_session_pool_is_round_robin pool_idle 2 [] [round_ok; round_ok]
           [conn0; conn_b] []);
    first [reflexivity | lia | (simpl; lia) | repeat constructor].
Defined.

(** A round of [initCachedSession] in which the broker refuses the session:
    the connection it was tried on goes back to the tail flagged, and the
    loop carries on with the rounds that are left. *)
Lemma initCachedSession_refused (r : SessionPool.InitRound) (rest : list SessionPool.InitRound)
    (id : Z) (cp : ConnectionPool.t) (sp : SessionPool.t) (c0 : Connection.t)
    (q' : list Connection.t) (e : goerror) :
  ConnectionPool.ctx cp = None ->
  buf (ConnectionPool.connections cp) = c0 :: q' ->
  closed (ConnectionPool.connections cp) = false ->
  (List.length (c0 :: q') <= cap (ConnectionPool.connections cp))%nat ->
  Connection.flagged c0 = false ->
  Connection.IsCached c0 = true ->
  SessionPool.opened r = Some e ->
  SessionPool.initCachedSession (r :: rest) id cp sp
  = SessionPool.initCachedSession rest id
      (ConnectionPool.set_connections
         (mkChan (q' ++ [Connection.Flag true c0]) (cap (ConnectionPool.connections cp)) false)
         cp) sp.
Proof.
  intros Hctx Hb Hcl Hcap Hf Hc Ho.
  cbn [SessionPool.initCachedSession].
  unfold SessionPool.pool_GetConnection, ConnectionPool.GetConnection,
    ConnectionPool.catchShutdown, recv_ready, recv.
  rewrite Hctx, Hb. cbn [Done]. rewrite select_first_of_three.
  unfold Connection.IsFlagged. rewrite Hf.
  unfold SessionPool.deriveSession, Session.NewSession. rewrite Ho.
  unfold SessionPool.pool_ReturnConnection, ConnectionPool.ReturnConnection.
  rewrite Hc. cbn [negb].
  replace (flaggable (Some (Opaque "session could not be derived"))) with true
    by reflexivity.
  unfold select, send_ready, send.
  cbn [ConnectionPool.connections ConnectionPool.set_connections buf cap closed nth].
  rewrite Hcl. simpl in Hcap.
  replace (List.length q' <? cap (ConnectionPool.connections cp))%nat with true
    by (symmetry; apply Nat.ltb_lt; lia).
  reflexivity.
Qed.

(** X22.  A connection on which a cached session cannot be derived is
    isolated: [initCachedSession] returns it to the pool flagged, at the
    tail of the queue, and retries on the next connection, on which the
    session is then derived; that connection goes back unflagged behind
    it. *)
Theorem init_cached_session_flags_and_retries (r1 r2 : SessionPool.InitRound)
    (rest : list SessionPool.InitRound) (id : Z) (cp : ConnectionPool.t)
    (sp : SessionPool.t) (c0 c1 : Connection.t) (q' : list Connection.t) (e : goerror) :
  ConnectionPool.ctx cp = None ->
  buf (ConnectionPool.connections cp) = c0 :: c1 :: q' ->
  closed (ConnectionPool.connections cp) = false ->
  (List.length (c0 :: c1 :: q') <= cap (ConnectionPool.connections cp))%nat ->
  Connection.flagged c0 = false -> Connection.IsCached c0 = true ->
  Connection.flagged c1 = false -> Connection.IsCached c1 = true ->
  SessionPool.opened r1 = Some e ->
  SessionPool.opened r2 = None ->
  SessionPool.initCachedSession (r1 :: r2 :: rest) id cp sp
  = Ret (rest,
         ConnectionPool.set_connections
           (mkChan (q' ++ [Connection.Flag true c0; c1])
                   (cap (ConnectionPool.connections cp)) false) cp,
         (Some (Session.mk id (Connection.name c1) (SessionPool.size sp)
                  (SessionPool.confirmable sp) true false (SessionPool.ctx sp) []),
          None))
  /\ Connection.flagged (Connection.Flag true c0) = true.
Proof.
  intros Hctx Hb Hcl Hcap Hf0 Hc0 Hf1 Hc1 Ho1 Ho2.
  split.
  - rewrite (initCachedSession_refused r1 (r2 :: rest) id cp sp c0 (c1 :: q') e); auto.
    rewrite (initCachedSession_head r2 rest id _ sp c1 (q' ++ [Connection.Flag true c0]));
      auto.
    + cbn. rewrite <- app_assoc. reflexivity.
    + cbn. rewrite length_app. simpl in *. lia.
  - unfold Connection.Flag. rewrite Hf0. reflexivity.
Qed.

Lemma init_cached_session_flags_and_retries_witness :
  SessionPool.initCachedSession
    [ {| SessionPool.get_pick := 0; SessionPool.get_sched := sched0;
         SessionPool.get_script := [];
         SessionPool.opened := Some (Amqp amqp_err2) |}; round_ok ] 0 pool_idle spool0
  = Ret ([],
         ConnectionPool.set_connections
           (mkChan ([] ++ [Connection.Flag true conn0; conn_b])
                   (cap (ConnectionPool.connections pool_idle)) false) pool_idle,
         (Some (Session.mk 0 (Connection.name conn_b) (SessionPool.size spool0)
                  (SessionPool.confirmable spool0) true false (SessionPool.ctx spool0) []),
          None))
  /\ Connection.flagged (Connection.Flag true conn0) = true.
Proof.
  apply (init_cached_session_flags_and_retries
           {| SessionPool.get_pick := 0; SessionPool.get_sched := sched0;
              SessionPool.get_script := [];
              SessionPool.opened := Some (Amqp amqp_err2) |}
           round_ok [] 0 pool_idle spool0 conn0 conn_b [] (Amqp amqp_err2));
    reflexivity.
Defined.

(** X23.  A transient session is never pooled: with a broker that accepts
    the dial and opens the session, [GetTransientSession] returns a session
    that is not cached and closes its connection with it, carries the next
    transient session id and is bound to a fresh transient connection; the
    queue of cached sessions is untouched, and [ReturnSession] closes the
    session without enqueueing it, whether it erred or not. *)
Theorem transient_session_is_closed_on_return (url_Parse : string -> URL + goerror)
    (ctx_ : context) (h : nat) (sch : Sched) (script : list Attempt)
    (cp : ConnectionPool.t) (sp : SessionPool.t) (u : URL) :
  url_Parse (ConnectionPool.url cp) = inl u ->
  exists cp1 sp1 s,
    SessionPool.GetTransientSession url_Parse ctx_ (DialOk h) sch script None cp sp
      = Ret (cp1, sp1, (Some s, None))
    /\ Session.IsCached s = false
    /\ Session.autoCloseConn s = true
    /\ Session.id s = wrap64 (SessionPool.transientID sp + 1)
    /\ Session.conn s
       = (ConnectionPool.name cp ++ "-transient-connection-"
            ++ fmt_d (ConnectionPool.transientID cp))%string
    /\ SessionPool.sessions sp1 = SessionPool.sessions sp
    /\ (forall r pick erred,
          SessionPool.ReturnSession r pick s erred sp1 = Ret (sp1, Session.Close s)).
Proof.
  intros Hu.
  destruct (deriveConnection_transient_ok url_Parse
              (ConnectionPool.set_transientID
                 (wrap64 (ConnectionPool.transientID cp + 1)) cp)
              ctx_ u (ConnectionPool.transientID cp) h Hu) as (c & Hd & Hc & Hname).
  unfold SessionPool.GetTransientSession, ConnectionPool.GetTransientConnection,
    ConnectionPool.nextTransientID.
  rewrite Hd. unfold Session.NewSession.
  do 3 eexists. split; [reflexivity|].
  cbn. repeat split; auto.
Qed.

Lemma transient_session_is_closed_on_return_witness :
  exists cp1 sp1 s,
    SessionPool.GetTransientSession parse0 None (DialOk 8) sched0 [] None pool_idle spool1
      = Ret (cp1, sp1, (Some s, None))
    /\ Session.IsCached s = false
    /\ Session.autoCloseConn s = true
    /\ Session.id s = wrap64 (SessionPool.transientID spool1 + 1)
    /\ Session.conn s = "app-transient-connection-0"
    /\ SessionPool.sessions sp1 = SessionPool.sessions spool1
    /\ (forall r pick erred,
          SessionPool.ReturnSession r pick s erred sp1 = Ret (sp1, Session.Close s)).
Proof.
  apply (transient_session_is_closed_on_return parse0 None 8 sched0 [] pool_idle spool1
           {| Scheme := "amqp"; Rest := "amqp://broker:5672/" |}).
  reflexivity.
Defined.

(** X24.  A cached Connection returned with a broker error is not handed
    out again.  It goes into the queue flagged, and the [GetConnection] that
    receives it runs the recovery: when the dial succeeds the call blocks,
    and when the call returns, it returns a cancellation-class error and no
    Connection, the flagged Connection having left the queue. *)
Theorem returned_fault_is_never_handed_out (ctx_ : context) (sch : Sched)
    (script : list Attempt) (herr err : option goerror)
    (cp : ConnectionPool.t) (c : Connection.t) :
  buf (ConnectionPool.connections cp) = [] ->
  closed (ConnectionPool.connections cp) = false ->
  (1 <= cap (ConnectionPool.connections cp))%nat ->
  Connection.IsCached c = true ->
  flaggable err = true ->
  exists cp1,
    ConnectionPool.ReturnConnection herr c err cp = Ret (cp1, Connection.Flag true c)
    /\ buf (ConnectionPool.connections cp1) = [Connection.Flag true c]
    /\ (forall cp2 r e,
          ConnectionPool.GetConnection ctx_ 0 sch script cp1 = Ret (cp2, (r, e)) ->
          r = None
          /\ (exists e', e = Some e' /\ shutdown_class e' = true)
          /\ buf (ConnectionPool.connections cp2) = [])
    /\ (forall h cn rest,
          ConnectionPool.GetConnection ctx_ 0 sch
            ({| dial := DialOk h; cancelled := cn |} :: rest) cp1 = Blocked).
Proof.
  intros Hb Hcl Hcap Hc Herr.
  assert (Hfl : Connection.flagged (Connection.Flag true c) = true).
  { destruct (Flag_spec true c) as (H & _). rewrite H. apply orb_true_r. }
  assert (Hret : ConnectionPool.ReturnConnection herr c err cp
                 = Ret (ConnectionPool.set_connections
                          (mkChan [Connection.Flag true c]
                                  (cap (ConnectionPool.connections cp)) false) cp,
                        Connection.Flag true c)).
  { unfold ConnectionPool.ReturnConnection. rewrite Hc, Herr. cbn [negb].
    unfold select, send_ready, send. rewrite Hcl, Hb. cbn [orb List.length nth app].
    replace (0 <? cap (ConnectionPool.connections cp))%nat with true
      by (symmetry; apply Nat.ltb_lt; lia).
    reflexivity. }
  rewrite Hret. eexists. split; [reflexivity|]. split; [reflexivity|].
  split.
  - intros cp2 r e.
    unfold ConnectionPool.GetConnection, select, recv_ready, recv.
    cbn [ConnectionPool.connections ConnectionPool.set_connections buf cap closed nth].
    unfold Connection.IsFlagged. rewrite Hfl.
    destruct (Connection.Recover sch script (Connection.Flag true c))
      as [[[e1|] c1]| | |] eqn:Hr; try discriminate.
    + intros H. inversion H. subst.
      apply recover_error in Hr. subst e1.
      split; [reflexivity|]. split; [|reflexivity].
      eexists. split; reflexivity.
    + exfalso. exact (recover_flagged_no_success _ _ _ _ Hfl Hr).
  - intros h cn rest.
    unfold ConnectionPool.GetConnection, select, recv_ready, recv.
    cbn [ConnectionPool.connections ConnectionPool.set_connections buf cap closed nth].
    unfold Connection.IsFlagged. rewrite Hfl.
    unfold Connection.Recover. rewrite (recover_flagged _ _ _ Hfl).
    destruct (error_frame (err_pick sch) (Connection.Flag true c)) as (He & _).
    simpl. unfold Connection.connect.
    rewrite isClosed_flagged by congruence. reflexivity.
Qed.

Lemma returned_fault_is_never_handed_out_witness :
  exists cp1,
    ConnectionPool.ReturnConnection None conn0 (Some (Amqp amqp_err1))
      (ConnectionPool.set_connections (mkChan [] 2 false) pool_idle)
      = Ret (cp1, Connection.Flag true conn0)
    /\ buf (ConnectionPool.connections cp1) = [Connection.Flag true conn0]
    /\ (forall cp2 r e,
          ConnectionPool.GetConnection None 0 sched0 script0 cp1 = Ret (cp2, (r, e)) ->
          r = None
          /\ (exists e', e = Some e' /\ shutdown_class e' = true)
          /\ buf (ConnectionPool.connections cp2) = [])
    /\ (forall h cn rest,
          ConnectionPool.GetConnection None 0 sched0
            ({| dial := DialOk h; cancelled := cn |} :: rest) cp1 = Blocked).
Proof.
  apply (returned_fault_is_never_handed_out None sched0 script0 None
           (Some (Amqp amqp_err1))
           (ConnectionPool.set_connections (mkChan [] 2 false) pool_idle) conn0);
    first [reflexivity | (simpl; lia)].
Defined.

(** X25.  [GetConnection] blocks on an empty, open queue while neither the
    caller's context nor the pool's token has fired, whatever the scheduler
    prefers, and otherwise only inside the recovery of a flagged Connection
    it has received; [GetSession] blocks exactly when the queue is empty and
    open and the pool's token has not fired. *)
Theorem get_blocks_on_empty_queue_or_in_recovery :
  (forall ctx_ pick sch script cp,
     (buf (ConnectionPool.connections cp) = []
      /\ closed (ConnectionPool.connections cp) = false
      /\ Done ctx_ = false
      /\ ConnectionPool.catchShutdown cp = false ->
      ConnectionPool.GetConnection ctx_ pick sch script cp = Blocked)
     /\ (ConnectionPool.GetConnection ctx_ pick sch script cp = Blocked ->
         (buf (ConnectionPool.connections cp) = []
          /\ closed (ConnectionPool.connections cp) = false
          /\ Done ctx_ = false
          /\ ConnectionPool.catchShutdown cp = false)
         \/ (exists c0 rest,
               buf (ConnectionPool.connections cp) = c0 :: rest
               /\ Connection.flagged c0 = true
               /\ Connection.Recover sch script c0 = Blocked)))
  /\ (forall pick sp,
        SessionPool.GetSession pick sp = Blocked
        <-> (buf (SessionPool.sessions sp) = []
             /\ closed (SessionPool.sessions sp) = false
             /\ SessionPool.catchShutdown sp = false)).
Proof.
  split.
  - intros ctx_ pick sch script cp. split.
    + intros (Hb & Hc & Hd & Hs). unfold ConnectionPool.GetConnection, select, recv_ready.
      rewrite Hb, Hc, Hd, Hs.
      destruct pick as [|[|[|[|p]]]]; reflexivity.
    + unfold ConnectionPool.GetConnection.
      destruct (select pick _) as [[|[|i]]|] eqn:Hsel; try discriminate.
      * unfold recv.
        destruct (buf (ConnectionPool.connections cp)) as [|c0 rest] eqn:Hb; [discriminate|].
        unfold Connection.IsFlagged.
        destruct (Connection.flagged c0) eqn:Hf; [|discriminate].
        destruct (Connection.Recover sch script c0) as [[[e|] c1]| | |] eqn:Hr;
          try discriminate.
        intros _. right. exists c0, rest. auto.
      * intros _. left. unfold select, recv_ready in Hsel.
        destruct (buf (ConnectionPool.connections cp));
          destruct (closed (ConnectionPool.connections cp));
          destruct (Done ctx_); destruct (ConnectionPool.catchShutdown cp);
          destruct pick as [|[|[|[|p]]]]; simpl in Hsel; try discriminate; auto.
  - intros pick sp. split.
    + unfold SessionPool.GetSession.
      destruct (select pick _) as [[|i]|] eqn:Hsel; try discriminate.
      * destruct (recv (SessionPool.sessions sp)) as [[s q]|]; discriminate.
      * intros _. unfold select, recv_ready in Hsel.
        destruct (buf (SessionPool.sessions sp));
          destruct (closed (SessionPool.sessions sp));
          destruct (SessionPool.catchShutdown sp);
          destruct pick as [|[|[|p]]]; simpl in Hsel; try discriminate; auto.
    + intros (Hb & Hc & Hs). unfold SessionPool.GetSession, select, recv_ready.
      rewrite Hb, Hc, Hs.
      destruct pick as [|[|[|p]]]; reflexivity.
Qed.

Lemma get_blocks_on_empty_queue_or_in_recovery_witness :
  ConnectionPool.GetConnection None 1 sched0 []
    (ConnectionPool.set_connections (mkChan [] 2 false) pool_idle) = Blocked
  /\ SessionPool.GetSession 0 spool0 = Blocked.
Proof.
  destruct get_blocks_on_empty_queue_or_in_recovery as [Hc Hs].
  split.
  - apply (Hc None 1%nat sched0 []
             (ConnectionPool.set_connections (mkChan [] 2 false) pool_idle)).
    repeat split.
  - apply (Hs 0%nat spool0). repeat split.
Defined.
